(** * Table engines of ayasofyazilim-ui: state orchestration of [TanstackTable]
      and [DataTable]

    The two React components are embedded as explicit state machines.  A
    component instance (a fiber) keeps its [useState] slots and, for every
    [useEffect], the dependency values seen by the last run of that effect.
    A commit runs, in source order, the effects whose dependencies changed;
    the bodies of the effects are written in a small effect monad that
    threads the pending state, logs every call of a caller-supplied callback
    and stops at the first exception.  JavaScript objects used as maps are
    [gmap string _]; arrays whose identity matters live in a heap. *)

From Stdlib Require Import Ascii String.
From stdpp Require Import gmap strings list fin_maps.

Open Scope string_scope.
Open Scope list_scope.

(** ** JavaScript data *)

(** A field value of a row object. *)
Inductive Value :=
| VNull
| VBool (b : bool)
| VNum (n : Z)
| VStr (s : string).

#[global] Instance Value_eq_dec : EqDecision Value.
Proof. solve_decision. Defined.

(** A row ([TData]) is an object; rows are never updated in place by the
    components, so they are kept as values. *)
Abbreviation Row := (gmap string Value).

(** How a call of a caller-supplied function ends. *)
Inductive Outcome := Returns | Throws.

(** ** A small effect monad for the bodies of handlers and effects

    [S] is the pending component state and [C] the type of logged calls.
    The result [None] means that an exception left the body: the statements
    after the throwing call are not executed. *)
Section Eff.
Context {S C : Type}.

Definition Eff (A : Type) : Type := S → list C * S * option A.

Definition ret {A} (a : A) : Eff A := λ s, ([], s, Some a).

Definition bind {A B} (m : Eff A) (k : A → Eff B) : Eff B := λ s,
  match m s with
  | (tr, s', Some a) =>
      match k a s' with
      | (tr', s'', r) => (tr ++ tr', s'', r)
      end
  | (tr, s', None) => (tr, s', None)
  end.

Definition get : Eff S := λ s, ([], s, Some s).

Definition modify (f : S → S) : Eff unit := λ s, ([], f s, Some tt).

(** Calling a caller-supplied function: the call is logged, and the body
    goes on only when the call returns. *)
Definition invoke (c : C) (o : Outcome) : Eff unit := λ s,
  match o with
  | Returns => ([c], s, Some tt)
  | Throws => ([c], s, None)
  end.

(** [useEffect] skips the body when the dependencies did not change. *)
Definition when (b : bool) (m : Eff unit) : Eff unit :=
  if b then m else ret tt.
End Eff.

#[global] Instance Eff_ret {S C} : MRet (@Eff S C) := @ret S C.
#[global] Instance Eff_bind {S C} : MBind (@Eff S C) := λ A B k m, bind m k.

(** [Object.is] on the dependency list of an effect: [None] is the state
    before the first run. *)
Definition depsChanged {D} `{EqDecision D} (prev : option D) (cur : D) : bool :=
  bool_decide (prev ≠ Some cur).

(** ** The simple variant: [TanstackTable] *)
Module TanstackTable.

Definition Callback := Row → Outcome.

(** [TanstackTableRowActionsType], by its [type] tag. *)
Inductive TanstackTableRowActionsType :=
| link (onClick : Callback)
| confirmation_dialog (title description confirmationText cancelText : string)
    (onConfirm : Callback) (onCancel : option Callback)
| custom_dialog (title content confirmationText cancelText : string)
    (onConfirm : Callback) (onCancel : option Callback).

(** The value of the pending-action slot: [{...action, row}].  The object
    is built afresh at every trigger; [oid] is its identity. *)
Record PendingAction := {
  oid : nat;
  action : TanstackTableRowActionsType;
  row : Row;
}.

Inductive CellRenderer :=
| CallerCell (k : nat)
| CellWithActions (actions : list TanstackTableRowActionsType).

Record ColumnDef := {
  id : string;
  cell : CellRenderer;
}.

Record Props := {
  columns : list ColumnDef;
  data : list Row;
  excludeColumns : option (list string);
  actions : option (list TanstackTableRowActionsType);
}.

Record State := {
  sorting : list (string * bool);
  columnVisibility : gmap string bool;
  columnFilters : list (string * Value);
  rowAction : option PendingAction;
}.

Definition setRowAction (a : option PendingAction) (s : State) : State :=
  {| sorting := sorting s; columnVisibility := columnVisibility s;
     columnFilters := columnFilters s; rowAction := a |}.

(** [Object.fromEntries]: entries are written in order, a later entry
    overwrites an earlier one with the same key. *)
Definition fromEntries {V} (es : list (string * V)) : gmap string V :=
  fold_left (λ o e, <[e.1 := e.2]> o) es ∅.

(** Lines 55-60: the initial value of the visibility slot. *)
Definition initialColumnVisibility (excludeColumns : option (list string))
  : gmap string bool :=
  match excludeColumns with
  | Some l => fromEntries (map (λ item, (item, false)) l)
  | None => ∅
  end.

Definition initialState (p : Props) : State :=
  {| sorting := [];
     columnVisibility := initialColumnVisibility (excludeColumns p);
     columnFilters := [];
     rowAction := None |}.

(** Lines 68-77: the declared columns, followed by the actions column when
    row actions are given. *)
Definition tableColumns (p : Props) : list ColumnDef :=
  match actions p with
  | Some acts => columns p ++ [{| id := "actions"; cell := CellWithActions acts |}]
  | None => columns p
  end.

(** The row-model library (@tanstack/react-table, outside the repository)
    reads the visibility state as [columnVisibility[id] ?? true]: an absent
    entry means visible, as the data model of the spec has it. *)
Definition getIsVisible (vis : gmap string bool) (c : string) : bool :=
  default true (vis !! c).

(** The header group of the row-model library has one header per visible
    column; lines 117-136 render one head cell for each of them. *)
Definition headerIds (p : Props) (s : State) : list string :=
  filter (λ c, getIsVisible (columnVisibility s) c = true) (map id (tableColumns p)).

(** Calls of caller-supplied functions made by the component itself. *)
Inductive Call :=
| call_onClick (r : Row).

(** Lines 79-84: the reaction to a change of the pending-action slot. *)
Definition rowActionEffect (ra : option PendingAction) : Eff (S:=State) (C:=Call) unit :=
  match ra with
  | Some {| action := link onClick; row := r |} =>
      invoke (call_onClick r) (onClick r);;
      modify (setRowAction None)
  | _ => ret tt
  end.

(** A mounted instance.  [effectDeps] is the identity of [rowAction] at
    the last run of the effect, [alive] turns false when an exception
    leaves a reaction (React then unmounts the component), [nextOid]
    counts the objects built so far. *)
Record Fiber := {
  props : Props;
  state : State;
  effectDeps : option (option nat);
  alive : bool;
  nextOid : nat;
}.

Definition mount (p : Props) : Fiber :=
  {| props := p; state := initialState p; effectDeps := None;
     alive := true; nextOid := 0 |}.

(** One reaction cycle: the render that follows a state change and the
    effects it schedules. *)
Definition commit (f : Fiber) : list Call * Fiber :=
  if alive f then
    let d := oid <$> rowAction (state f) in
    match when (depsChanged (effectDeps f) d) (rowActionEffect (rowAction (state f)))
               (state f) with
    | (tr, s', r) =>
        (tr, {| props := props f; state := s'; effectDeps := Some d;
                alive := bool_decide (is_Some r); nextOid := nextOid f |})
    end
  else ([], f).

(** [fuel] reaction cycles in a row, with the calls of all of them. *)
Fixpoint settle (fuel : nat) (f : Fiber) : list Call * Fiber :=
  match fuel with
  | 0 => ([], f)
  | S n =>
      let '(tr, f') := commit f in
      let '(tr', f'') := settle n f' in
      (tr ++ tr', f'')
  end.

(** Modelled from the spec: the cell action dispatcher
    ([TanstackTableRowActions] of [./tanstack-table-row-actions], which
    [CellWithActions] renders with [setRowAction]).  Selecting an action of
    a row calls [setRowAction({ ...action, row })] and has no other effect. *)
Definition dispatch (a : TanstackTableRowActionsType) (r : Row) (f : Fiber) : Fiber :=
  {| props := props f;
     state := setRowAction (Some {| oid := nextOid f; action := a; row := r |}) (state f);
     effectDeps := effectDeps f; alive := alive f; nextOid := S (nextOid f) |}.

(** Lines 64-66: the setter of the pending-action slot, called with an
    object on a mounted instance.  It changes the slot and calls nothing. *)
Definition setPendingAction (a : option PendingAction) (f : Fiber) : Fiber :=
  {| props := props f; state := setRowAction a (state f);
     effectDeps := effectDeps f; alive := alive f; nextOid := nextOid f |}.

(** Lines 177 and 190: the [setDialogOpen] handed to both dialogs. *)
Definition setDialogOpen (f : Fiber) : Fiber :=
  {| props := props f; state := setRowAction None (state f);
     effectDeps := effectDeps f; alive := alive f; nextOid := nextOid f |}.

(** Identities held by the fiber are identities of objects already built. *)
Definition wf (f : Fiber) : Prop :=
  (∀ a, rowAction (state f) = Some a → oid a < nextOid f) ∧
  (∀ o, effectDeps f = Some (Some o) → o < nextOid f).

(** *** The rendered body *)

(** A row of the row model, as the library hands it to the body. *)
Record ModelRow := {
  rowId : string;
  original : Row;
  getIsSelected : bool;
  getVisibleCells : list string;
}.

Inductive BodyRow :=
| DataRow (key : string) (selected : bool) (cells : list string)
| NoResultsRow (colSpan : nat) (text : string).

(** Lines 138-171. *)
Definition renderBody (p : Props) (rows : list ModelRow) : list BodyRow :=
  if bool_decide (length rows ≠ 0) then
    map (λ r, DataRow (rowId r) (getIsSelected r) (getVisibleCells r)) rows
  else [NoResultsRow (length (columns p)) "No data results"].

(** *** A concrete instance *)

Definition sampleRow : Row := {[ "id" := VNum 1 ]}.

Definition sampleProps : Props :=
  {| columns := [ {| id := "id"; cell := CallerCell 0 |};
                  {| id := "name"; cell := CallerCell 1 |};
                  {| id := "email"; cell := CallerCell 2 |} ];
     data := [];
     excludeColumns := Some ["id"];
     actions := Some [link (λ _, Returns)] |}.

(** *** The dialogs *)

(** The dialog elements of lines 175-200, with the props they are given
    ([setDialogOpen] is the same function for both, see above). *)
Inductive DialogElement :=
| TanstackTableConfirmationDialog (row : Row)
    (title description confirmationText cancelText : string)
    (onConfirm : Callback) (onCancel : option Callback)
| TanstackTableCustomDialog (row : Row)
    (title content confirmationText cancelText : string)
    (onConfirm : Callback) (onCancel : option Callback).

(** Lines 175-200: two conditional elements, one after the other. *)
Definition renderDialogs (s : State) : list DialogElement :=
  match rowAction s with
  | Some {| action := confirmation_dialog t d c x onConfirm onCancel; row := r |} =>
      [TanstackTableConfirmationDialog r t d c x onConfirm onCancel]
  | _ => []
  end ++
  match rowAction s with
  | Some {| action := custom_dialog t k c x onConfirm onCancel; row := r |} =>
      [TanstackTableCustomDialog r t k c x onConfirm onCancel]
  | _ => []
  end.

(** *** Runs *)

(** What reaches the pending-action slot from outside: a row action is
    selected, or a dialog calls its [setDialogOpen]. *)
Inductive Event :=
| select_action (a : TanstackTableRowActionsType) (r : Row)
| close_dialog.

(** An unmounted instance handles nothing. *)
Definition handle (e : Event) (f : Fiber) : Fiber :=
  if alive f then
    match e with
    | select_action a r => dispatch a r f
    | close_dialog => setDialogOpen f
    end
  else f.

(** Each event is followed by [fuel] reaction cycles. *)
Fixpoint run (fuel : nat) (es : list Event) (f : Fiber) : list Call * Fiber :=
  match es with
  | [] => ([], f)
  | e :: es' =>
      let '(tr, f') := settle fuel (handle e f) in
      let '(tr', f'') := run fuel es' f' in
      (tr ++ tr', f'')
  end.

(** The [onClick] calls a list of events asks for: one per selected [link]
    action, with its row. *)
Definition clicksOf (es : list Event) : list Call :=
  omap (λ e, match e with
             | select_action (link _) r => Some (call_onClick r)
             | _ => None
             end) es.

(** The action and row an event leaves pending once the table has reacted. *)
Definition pendingOf (e : Event) : option (TanstackTableRowActionsType * Row) :=
  match e with
  | select_action (link _) _ => None
  | select_action a r => Some (a, r)
  | close_dialog => None
  end.

(** The [onClick] of every selected [link] action returns on its row. *)
Definition clicksReturn (es : list Event) : Prop :=
  Forall (λ e, match e with
               | select_action (link onClick) r => onClick r = Returns
               | _ => True
               end) es.

Definition sampleConfirm : TanstackTableRowActionsType :=
  confirmation_dialog "Delete" "Delete the row?" "Yes" "No" (λ _, Returns) None.

Definition sampleEvents : list Event :=
  [ select_action sampleConfirm sampleRow;
    select_action (link (λ _, Returns)) sampleRow;
    select_action sampleConfirm ∅;
    close_dialog;
    select_action (link (λ _, Returns)) ∅ ].

End TanstackTable.

(** ** The auto-generated variant: [DataTable] *)
Module DataTable.

(** *** Filters and the filter payload *)

(** [ColumnFilter]: a committed filter of the toolbar. *)
Record ColumnFilter := {
  name : string;
  value : string;
  type : string;
}.

#[global] Instance ColumnFilter_eq_dec : EqDecision ColumnFilter.
Proof. solve_decision. Defined.

(** A value of [FilterColumnResult]: [string | string[]]. *)
Inductive FilterValue :=
| Scalar (v : string)
| Segments (l : list string).

(** [String.prototype.split] with a one-character separator. *)
Fixpoint split (sep : ascii) (s : string) : list string :=
  match s with
  | EmptyString => [EmptyString]
  | String c s' =>
      if Ascii.eqb c sep then EmptyString :: split sep s'
      else match split sep s' with
           | seg :: segs => String c seg :: segs
           | [] => [String c EmptyString]
           end
  end.

(** Truthiness of a string: only the empty string is falsy. *)
Definition truthy (s : string) : bool := negb (String.eqb s "").

(** Lines 180-184: the payload entry of one committed filter. *)
Definition filterEntry (column : ColumnFilter) : FilterValue :=
  if bool_decide (type column = "select-multiple" ∨ type column = "select-async")
  then Segments (List.filter truthy (split "," (value column)))
  else Scalar (value column).

(** The payload object [FilterColumnResult], built from [{}]: its own
    entries, and its prototype once that is no longer [Object.prototype]
    (it is then an array of strings). *)
Record FilterColumnResult := {
  entries : gmap string FilterValue;
  proto : option (list string);
}.

(** [{}]. *)
Definition emptyObject : FilterColumnResult := {| entries := ∅; proto := None |}.

(** [filter[key] = v] on a plain object.  Every key but ["__proto__"] gets
    an own entry, written over an earlier one.  ["__proto__"] is the accessor
    of [Object.prototype]: its setter makes an array the prototype of the
    object, ignores a string, and adds no entry. *)
Definition assign (key : string) (v : FilterValue) (o : FilterColumnResult)
  : FilterColumnResult :=
  if bool_decide (key = "__proto__") then
    match v with
    | Segments l => {| entries := entries o; proto := Some l |}
    | Scalar _ => o
    end
  else {| entries := <[key := v]> (entries o); proto := proto o |}.

(** Lines 178-185: [filter[column.name] = ...] for every committed filter,
    in order. *)
Definition buildFilter (filteredColumns : list ColumnFilter) : FilterColumnResult :=
  fold_left (λ filter column, assign (name column) (filterEntry column) filter)
            filteredColumns emptyObject.

(** *** Columns *)

Inductive CellRenderer :=
| CallerCell (k : nat)
| SkeletonCell.

Record ColumnDef := {
  id : string;
  header : nat;
  cell : CellRenderer;
}.

(** The part of the auto-column configuration the generator reads. *)
Record AutoColumnsData := {
  excludeList : list string;
  tableType : string;
}.

Inductive ColumnsType :=
| Auto (d : AutoColumnsData)
| Custom (columns : list ColumnDef).

(** *** Arrays by reference *)

Abbreviation loc := nat.

Inductive Arr :=
| RowsArr (rs : list Row)
| FiltersArr (fs : list ColumnFilter).

Definition rowsAt (h : gmap nat Arr) (l : loc) : list Row :=
  match h !! l with
  | Some (RowsArr rs) => rs
  | _ => []
  end.

Definition filtersAt (h : gmap nat Arr) (l : loc) : list ColumnFilter :=
  match h !! l with
  | Some (FiltersArr fs) => fs
  | _ => []
  end.

(** *** Props, state, fiber *)

(** Caller-supplied functions are known by their identity; their calls are
    logged and taken to return. *)
Abbreviation FnId := nat.

Record Props := {
  columnsData : ColumnsType;
  data : loc;
  isLoading : bool;
  rowCount : option nat;
  fetchRequest : option FnId;
  renderSubComponent : option FnId;
  onDataUpdate : option FnId;
  detailedFilter : option (list ColumnFilter);
}.

(** The state slots read or written by the modelled code; [pageIndex] is
    the pagination state kept by the row-model library. *)
Record State := {
  tableData : loc;
  isOpen : bool;
  rowSelection : gmap string bool;
  filteredColumns : loc;
  pageIndex : nat;
}.

Record Fiber := {
  props : Props;
  heap : gmap nat Arr;
  state : State;
  loadingDeps : option (bool * loc);
  dataUpdateDeps : option (loc * option FnId);
  fetchDeps : option (nat * loc);
}.

Inductive Call :=
| call_onDataUpdate (arg : loc) (rows : list Row)
| call_fetchRequest (page : nat) (filter : FilterColumnResult).

Abbreviation M := (Eff (S:=Fiber) (C:=Call)).

Definition withState (g : State → State) (f : Fiber) : Fiber :=
  {| props := props f; heap := heap f; state := g (state f);
     loadingDeps := loadingDeps f; dataUpdateDeps := dataUpdateDeps f;
     fetchDeps := fetchDeps f |}.

Definition withHeap (h : gmap nat Arr) (f : Fiber) : Fiber :=
  {| props := props f; heap := h; state := state f;
     loadingDeps := loadingDeps f; dataUpdateDeps := dataUpdateDeps f;
     fetchDeps := fetchDeps f |}.

Definition withProps (p : Props) (f : Fiber) : Fiber :=
  {| props := p; heap := heap f; state := state f;
     loadingDeps := loadingDeps f; dataUpdateDeps := dataUpdateDeps f;
     fetchDeps := fetchDeps f |}.

Definition withDeps (d1 : bool * loc) (d2 : loc * option FnId) (d3 : nat * loc)
    (f : Fiber) : Fiber :=
  {| props := props f; heap := heap f; state := state f;
     loadingDeps := Some d1; dataUpdateDeps := Some d2; fetchDeps := Some d3 |}.

(** A new array: a location not yet in the heap. *)
Definition newArray (a : Arr) : M loc := λ f,
  let l := fresh (dom (heap f)) in
  ([], withHeap (<[l := a]> (heap f)) f, Some l).

Definition setTableData (l : loc) : M unit :=
  modify (withState (λ s,
    {| tableData := l; isOpen := isOpen s; rowSelection := rowSelection s;
       filteredColumns := filteredColumns s; pageIndex := pageIndex s |})).

(** [setTableData((old) => g(old))] where [g] builds a new array. *)
Definition setTableDataWith (g : list Row → list Row) : M unit :=
  f ← get;
  l ← newArray (RowsArr (g (rowsAt (heap f) (tableData (state f)))));
  setTableData l.

Definition setIsOpen (b : bool) : M unit :=
  modify (withState (λ s,
    {| tableData := tableData s; isOpen := b; rowSelection := rowSelection s;
       filteredColumns := filteredColumns s; pageIndex := pageIndex s |})).

(** The argument of a React state setter: a value, or a function of the
    old value. *)
Inductive Updater :=
| NewValue (v : gmap string bool)
| FromOld (g : gmap string bool → gmap string bool).

Definition applyUpdater (u : Updater) (old : gmap string bool) : gmap string bool :=
  match u with
  | NewValue v => v
  | FromOld g => g old
  end.

Definition setRowSelection (u : Updater) : M unit :=
  modify (withState (λ s,
    {| tableData := tableData s; isOpen := isOpen s;
       rowSelection := applyUpdater u (rowSelection s);
       filteredColumns := filteredColumns s; pageIndex := pageIndex s |})).

Definition setFilteredColumns (fs : list ColumnFilter) : M unit :=
  l ← newArray (FiltersArr fs);
  modify (withState (λ s,
    {| tableData := tableData s; isOpen := isOpen s; rowSelection := rowSelection s;
       filteredColumns := l; pageIndex := pageIndex s |})).

Definition setPageIndex (n : nat) : M unit :=
  modify (withState (λ s,
    {| tableData := tableData s; isOpen := isOpen s; rowSelection := rowSelection s;
       filteredColumns := filteredColumns s; pageIndex := n |})).

Definition setProps (p : Props) : M unit := modify (withProps p).

(** *** Effects *)

(** [Array(6).fill({})]. *)
Definition placeholderRows : list Row := replicate 6 ∅.

(** Lines 102-108. *)
Definition loadingEffect (p : Props) : M unit :=
  if isLoading p then
    l ← newArray (RowsArr placeholderRows);
    setTableData l
  else setTableData (data p).

(** Lines 110-113; [tableData] is the value of the slot in the render that
    scheduled the effect. *)
Definition dataUpdateEffect (p : Props) (tableData : loc) : M unit :=
  match onDataUpdate p with
  | Some _ =>
      f ← get;
      invoke (call_onDataUpdate tableData (rowsAt (heap f) tableData)) Returns
  | None => mret tt
  end;;
  setIsOpen false.

(** Lines 177-188. *)
Definition fetchEffect (p : Props) (pageIndex : nat) (filteredColumns : loc) : M unit :=
  f ← get;
  let filter := buildFilter (filtersAt (heap f) filteredColumns) in
  match fetchRequest p with
  | Some _ => invoke (call_fetchRequest pageIndex filter) Returns
  | None => mret tt
  end.

(** One reaction cycle: the effects of one render, in source order, each
    run only when its dependencies changed.  The effects read the slots
    of that render; what they set is seen by the next one. *)
Definition commit : M unit :=
  f ← get;
  let p := props f in
  let s := state f in
  let d1 := (isLoading p, data p) in
  let d2 := (tableData s, onDataUpdate p) in
  let d3 := (pageIndex s, filteredColumns s) in
  when (depsChanged (loadingDeps f) d1) (loadingEffect p);;
  when (depsChanged (dataUpdateDeps f) d2) (dataUpdateEffect p (tableData s));;
  when (depsChanged (fetchDeps f) d3) (fetchEffect p (pageIndex s) (filteredColumns s));;
  modify (withDeps d1 d2 d3).

Fixpoint settle (fuel : nat) : M unit :=
  match fuel with
  | 0 => mret tt
  | S n => commit;; settle n
  end.

(** Lines 81-100: the first render.  [data || []] is [data] for an
    array; the committed filters are a new array. *)
Definition mount (p : Props) (h : gmap nat Arr) : Fiber :=
  let fs := match detailedFilter p with
            | Some df => List.filter (λ i, truthy (value i)) df
            | None => []
            end in
  let l := fresh (dom h) in
  {| props := p; heap := <[l := FiltersArr fs]> h;
     state := {| tableData := data p; isOpen := false; rowSelection := ∅;
                 filteredColumns := l; pageIndex := 0 |};
     loadingDeps := None; dataUpdateDeps := None; fetchDeps := None |}.

(** *** Handlers given to the row-model library *)

(** Lines 145-148. *)
Definition onRowSelectionChange (row : Updater) : M unit :=
  f ← get;
  if isLoading (props f) then mret tt
  else setRowSelection row.

(** [table.resetRowSelection()] of the row-model library.  The selection
    is a controlled slot ([state: { rowSelection }], line 152) whose only
    writer is line 147, so the reset reaches it through
    [onRowSelectionChange], with the initial selection [{}]. *)
Definition resetRowSelection : M unit := onRowSelectionChange (NewValue ∅).

(** [Array.prototype.filter] with the index as second argument. *)
Fixpoint filteri {A} (p : A → nat → bool) (l : list A) : list A :=
  match l with
  | [] => []
  | x :: l' =>
      if p x 0 then x :: filteri (λ y i, p y (S i)) l'
      else filteri (λ y i, p y (S i)) l'
  end.

(** Lines 155-158. *)
Definition removeRow (rowIndex : nat) : M unit :=
  setTableDataWith (filteri (λ _row index, bool_decide (index ≠ rowIndex)));;
  resetRowSelection.

(** Lines 159-171. *)
Definition updateData (rowIndex : nat) (columnId : string) (value : Value) : M unit :=
  setTableDataWith (imap (λ index row,
    if bool_decide (index = rowIndex) then <[columnId := value]> row else row)).

(** The snapshot handed to the row model: [data: tableData]. *)
Definition snapshot (f : Fiber) : list Row := rowsAt (heap f) (tableData (state f)).

(** The arguments of the [fetchRequest] and of the [onDataUpdate] calls of a
    trace. *)
Definition fetchCalls (tr : list Call) : list (nat * FilterColumnResult) :=
  omap (λ c, match c with
             | call_fetchRequest page filter => Some (page, filter)
             | _ => None
             end) tr.

Definition dataUpdateCalls (tr : list Call) : list (loc * list Row) :=
  omap (λ c, match c with
             | call_onDataUpdate arg rows => Some (arg, rows)
             | _ => None
             end) tr.

(** The arrays the fiber refers to are in the heap. *)
Definition allocated (f : Fiber) : Prop :=
  is_Some (heap f !! data (props f))
  ∧ is_Some (heap f !! tableData (state f))
  ∧ is_Some (heap f !! filteredColumns (state f)).

(** Every effect has seen the current values of its dependencies: the next
    reaction cycle has nothing to do. *)
Definition settled (f : Fiber) : Prop :=
  loadingDeps f = Some (isLoading (props f), data (props f))
  ∧ dataUpdateDeps f = Some (tableData (state f), onDataUpdate (props f))
  ∧ fetchDeps f = Some (pageIndex (state f), filteredColumns (state f)).

(** The fiber left by a handler or a reaction, and the calls it made. *)
Definition after {A} (m : M A) (f : Fiber) : Fiber := (m f).1.2.
Definition calls {A} (m : M A) (f : Fiber) : list Call := (m f).1.1.

(** *** Rendering *)
Section Render.
(** [columnsGenerator], imported from [./columnsGenerator]. *)
Variable columnsGenerator : AutoColumnsData → list ColumnDef.

(** Lines 115-126: the columns before the loading projection. *)
Definition declaredColumns (p : Props) : list ColumnDef :=
  match columnsData p with
  | Auto d => columnsGenerator d
  | Custom cs => cs
  end.

(** Lines 127-132: [{ ...column, cell: SkeletonCell }] while loading. *)
Definition columns (p : Props) : list ColumnDef :=
  if isLoading p then
    map (λ column, {| id := id column; header := header column;
                      cell := SkeletonCell |}) (declaredColumns p)
  else declaredColumns p.

Record ModelRow := {
  rowId : string;
  getIsSelected : bool;
  getIsExpanded : bool;
  getVisibleCells : list string;
}.

Inductive BodyRow :=
| DataRow (key : string) (selected : bool) (cells : list string)
| SubComponentRow (colSpan : nat)
| NoResultsRow (colSpan : nat) (text : string).

(** Lines 237-275. *)
Definition renderBody (p : Props) (rows : list ModelRow) : list BodyRow :=
  if bool_decide (length rows ≠ 0) then
    flat_map (λ row,
      DataRow (rowId row) (getIsSelected row) (getVisibleCells row) ::
      (if getIsExpanded row && bool_decide (is_Some (renderSubComponent p))
       then [SubComponentRow (length (getVisibleCells row))] else [])) rows
  else [NoResultsRow (length (columns p) + 1) "No results."].
End Render.

(** *** A concrete instance *)

Definition sampleRows : list Row :=
  [ {[ "id" := VNum 1; "name" := VStr "A" ]};
    {[ "id" := VNum 2; "name" := VStr "B" ]};
    {[ "id" := VNum 3; "name" := VStr "C" ]};
    {[ "id" := VNum 4; "name" := VStr "D" ]};
    {[ "id" := VNum 5; "name" := VStr "E" ]} ].

Definition sampleHeap : gmap nat Arr := {[ 0 := RowsArr sampleRows ]}.

Definition sampleColumns : list ColumnDef :=
  [ {| id := "id"; header := 0; cell := CallerCell 0 |};
    {| id := "name"; header := 1; cell := CallerCell 1 |};
    {| id := "status"; header := 2; cell := CallerCell 2 |} ].

Definition sampleFilters : list ColumnFilter :=
  [ {| name := "status"; value := "active,pending"; type := "select-multiple" |};
    {| name := "name"; value := "a,b"; type := "text" |} ].

Definition sampleProps (loading : bool) : Props :=
  {| columnsData := Custom sampleColumns; data := 0; isLoading := loading;
     rowCount := None; fetchRequest := Some 1; renderSubComponent := None;
     onDataUpdate := Some 2; detailedFilter := Some sampleFilters |}.

(** The table after its first reactions, no load in flight. *)
Definition idleTable : Fiber :=
  after (settle 3) (mount (sampleProps false) sampleHeap).

(** A reload: row 1 is selected, then the caller sets [isLoading]. *)
Definition reloadingTable : Fiber :=
  after (onRowSelectionChange (NewValue {[ "1" := true ]});;
         setProps (sampleProps true);;
         settle 3) idleTable.

End DataTable.

(** * Properties of [TanstackTable] *)
Section TanstackTableFacts.
Import TanstackTable.

Lemma fold_exclude_lookup (l : list string) (acc : gmap string bool) (c : string) :
  fold_left (λ o e, <[e.1 := e.2]> o) (map (λ item, (item, false)) l) acc !! c
  = if bool_decide (c ∈ l) then Some false else acc !! c.
Proof.
  revert acc. induction l as [|x l IH]; intros acc; cbn [fold_left map].
  - rewrite bool_decide_eq_false_2; [done | apply not_elem_of_nil].
  - rewrite IH. destruct (decide (c ∈ l)) as [Hin|Hout].
    + rewrite !bool_decide_eq_true_2; [done | by right | done].
    + rewrite (bool_decide_eq_false_2 (c ∈ l)) by done.
      destruct (decide (c = x)) as [->|Hne].
      * rewrite lookup_insert_eq, bool_decide_eq_true_2; [done | by left].
      * rewrite lookup_insert_ne by done.
        rewrite bool_decide_eq_false_2; [done|].
        rewrite elem_of_cons. tauto.
Qed.

Lemma initialColumnVisibility_lookup (ex : option (list string)) (c : string) :
  initialColumnVisibility ex !! c
  = if bool_decide (c ∈ default [] ex) then Some false else None.
Proof.
  destruct ex as [l|]; cbn [initialColumnVisibility default].
  - unfold fromEntries. by rewrite fold_exclude_lookup, lookup_empty.
  - rewrite lookup_empty. rewrite bool_decide_eq_false_2; [done | apply not_elem_of_nil].
Qed.

(** C9: the visibility slot starts with exactly the entries [c ↦ false]
    for the ids [c] of [excludeColumns] (none when the prop is absent);
    every other column is visible by default, the header row has no head
    cell for an excluded id, and [excludeColumns = ["id"]] gives
    [{id: false}]. *)
Theorem initial_visibility_from_excludeColumns (p : Props) (c : string) :
  let excluded := default [] (excludeColumns p) in
  let s := state (mount p) in
  columnVisibility s !! c = (if bool_decide (c ∈ excluded) then Some false else None)
  ∧ getIsVisible (columnVisibility s) c = negb (bool_decide (c ∈ excluded))
  ∧ (c ∈ headerIds p s ↔ c ∈ map id (tableColumns p) ∧ c ∉ excluded)
  ∧ initialColumnVisibility (Some ["id"]) = {["id" := false]}.
Proof.
  simpl. pose proof (initialColumnVisibility_lookup (excludeColumns p) c) as Hl.
  split; [exact Hl|]. split; [|split].
  - unfold getIsVisible. rewrite Hl. by case_bool_decide.
  - unfold headerIds. rewrite list_elem_of_filter. simpl.
    unfold getIsVisible. rewrite Hl.
    case_bool_decide; simpl; split; intros [H1 H2]; try done; by split.
  - reflexivity.
Qed.

(** *** The pending-action slot *)

Lemma wf_mount (p : Props) : wf (mount p).
Proof. split; intros ?; discriminate. Qed.

Lemma wf_dispatch (a : TanstackTableRowActionsType) (r : Row) (f : Fiber) :
  wf f → wf (dispatch a r f).
Proof.
  intros [Hra Hd]. split; cbn.
  - intros ? [= <-]. cbn. lia.
  - intros o Ho. apply Hd in Ho. lia.
Qed.

Lemma wf_setDialogOpen (f : Fiber) : wf f → wf (setDialogOpen f).
Proof. intros [Hra Hd]. split; cbn; [intros ?; discriminate | done]. Qed.

Lemma wf_commit (f : Fiber) : wf f → wf (commit f).2.
Proof.
  intros [Hra Hd]. unfold commit. destruct (alive f); [|by split].
  destruct (rowAction (state f)) as [a|] eqn:Ha.
  - specialize (Hra a eq_refl). cbn [fmap option_fmap option_map].
    destruct (depsChanged _ _); cbn [when].
    + destruct a as [o [onClick| |] r]; cbn [rowActionEffect].
      * unfold mbind, Eff_bind, bind, invoke, modify.
        destruct (onClick r); split; cbn; try (intros ?; discriminate);
          try (intros ? [= <-]; cbn in *; lia).
        rewrite Ha. intros ? [= <-]. cbn in *. lia.
      * split; cbn; [rewrite Ha; intros ? [= <-] | intros ? [= <-]]; cbn in *; lia.
      * split; cbn; [rewrite Ha; intros ? [= <-] | intros ? [= <-]]; cbn in *; lia.
    + split; cbn; [rewrite Ha; intros ? [= <-] | intros ? [= <-]]; cbn in *; lia.
  - cbn [fmap option_fmap option_map].
    destruct (depsChanged _ _); split; cbn; try rewrite Ha; intros ?; discriminate.
Qed.

Lemma wf_deps_fresh (f : Fiber) : wf f → effectDeps f ≠ Some (Some (nextOid f)).
Proof. intros [_ Hd] Heq. apply Hd in Heq. lia. Qed.

(** The reaction to a freshly set [link] action, by the outcome of
    [onClick]. *)
Lemma commit_dispatch_link (f : Fiber) (onClick : Callback) (r : Row) :
  wf f → alive f = true →
  commit (dispatch (link onClick) r f)
  = match onClick r with
    | Returns =>
        ([call_onClick r],
         {| props := props f; state := setRowAction None (state f);
            effectDeps := Some (Some (nextOid f)); alive := true;
            nextOid := S (nextOid f) |})
    | Throws =>
        ([call_onClick r],
         {| props := props f;
            state := setRowAction
                       (Some {| oid := nextOid f; action := link onClick; row := r |})
                       (state f);
            effectDeps := Some (Some (nextOid f)); alive := false;
            nextOid := S (nextOid f) |})
    end.
Proof.
  intros Hwf Hal. unfold commit, dispatch. cbn [alive state rowAction setRowAction].
  rewrite Hal. cbn [fmap option_fmap option_map oid effectDeps].
  unfold depsChanged. rewrite bool_decide_eq_true_2 by by apply wf_deps_fresh.
  cbn [when rowActionEffect action row].
  unfold mbind, Eff_bind, bind, invoke, modify.
  destruct (onClick r); reflexivity.
Qed.

(** A reaction with an empty slot calls nothing and leaves the slot empty. *)
Lemma commit_idle (f : Fiber) :
  alive f = true → rowAction (state f) = None →
  (commit f).1 = [] ∧ state (commit f).2 = state f ∧ alive (commit f).2 = true.
Proof.
  intros Hal Hra. unfold commit. rewrite Hal, Hra. cbn [fmap option_fmap option_map].
  destruct (depsChanged (effectDeps f) None); cbn; done.
Qed.

Lemma settle_idle (n : nat) (f : Fiber) :
  alive f = true → rowAction (state f) = None →
  (settle n f).1 = [] ∧ rowAction (state (settle n f).2) = None
  ∧ alive (settle n f).2 = true.
Proof.
  revert f. induction n as [|n IH]; intros f Hal Hra; cbn [settle]; [done|].
  destruct (commit_idle f Hal Hra) as (Htr & Hst & Hal').
  destruct (commit f) as [tr f'] eqn:Hc. cbn [fst snd] in *.
  specialize (IH f' Hal' ltac:(by rewrite Hst)).
  destruct (settle n f') as [tr' f'']. cbn [fst snd] in *.
  destruct IH as (-> & ? & ?). by subst tr.
Qed.

(** An unmounted instance reacts to nothing. *)
Lemma settle_dead (n : nat) (f : Fiber) :
  alive f = false → settle n f = ([], f).
Proof.
  intros Hal. induction n as [|n IH]; cbn [settle]; [done|].
  unfold commit. rewrite Hal. by rewrite IH.
Qed.

(** A reaction to a dialog action calls nothing: the dialog components
    get the action and [setDialogOpen]. *)
Lemma commit_dispatch_dialog (f : Fiber) (a : TanstackTableRowActionsType) (r : Row) :
  alive f = true → (∀ c, a ≠ link c) →
  (commit (dispatch a r f)).1 = []
  ∧ rowAction (state (commit (dispatch a r f)).2)
    = Some {| oid := nextOid f; action := a; row := r |}
  ∧ alive (commit (dispatch a r f)).2 = true.
Proof.
  intros Hal Hnl. unfold commit, dispatch. cbn [alive state rowAction setRowAction].
  rewrite Hal. cbn [fmap option_fmap option_map oid effectDeps].
  destruct (depsChanged (effectDeps f) (Some (nextOid f)));
    destruct a; cbn; try done; by destruct (Hnl onClick).
Qed.

(** The reaction to a slot that holds a [link] action the effect has not
    yet run for, by the outcome of [onClick]. *)
Lemma commit_link_pending (f : Fiber) (a : PendingAction) (onClick : Callback) :
  alive f = true → rowAction (state f) = Some a → action a = link onClick →
  effectDeps f ≠ Some (Some (oid a)) →
  (commit f).1 = [call_onClick (row a)]
  ∧ match onClick (row a) with
    | Returns => rowAction (state (commit f).2) = None ∧ alive (commit f).2 = true
    | Throws => rowAction (state (commit f).2) = Some a ∧ alive (commit f).2 = false
    end.
Proof.
  intros Hal Hra Hact Hdeps. unfold commit. rewrite Hal, Hra.
  cbn [fmap option_fmap option_map].
  unfold depsChanged. rewrite bool_decide_eq_true_2 by done.
  destruct a as [o act r]. cbn [action oid row] in *. subst act.
  cbn [when rowActionEffect]. unfold mbind, Eff_bind, bind, invoke, modify.
  destruct (onClick r); cbn; by rewrite ?Hra.
Qed.

(** C4 (as amended): once a [link] action is set as the pending action (an
    object the effect has not run for, as every newly built one is), the
    next reaction cycle calls its [onClick] exactly once, with the target
    row, and the cycles after it call nothing more; the call is made by the
    reaction, the setter only fills the slot.  When [onClick] returns, the
    slot is empty after that cycle and stays empty; when it throws, the slot
    keeps the action. *)
Theorem link_auto_clear (f : Fiber) (a : PendingAction) (onClick : Callback) (n : nat) :
  alive f = true → action a = link onClick →
  effectDeps f ≠ Some (Some (oid a)) →
  let f0 := setPendingAction (Some a) f in
  rowAction (state f0) = Some a
  ∧ (commit f0).1 = [call_onClick (row a)]
  ∧ (settle (S n) f0).1 = [call_onClick (row a)]
  ∧ match onClick (row a) with
    | Returns => rowAction (state (commit f0).2) = None
                 ∧ rowAction (state (settle (S n) f0).2) = None
    | Throws => rowAction (state (commit f0).2) = Some a
                ∧ rowAction (state (settle (S n) f0).2) = Some a
    end.
Proof.
  intros Hal Hact Hdeps f0. split; [reflexivity|].
  destruct (commit_link_pending f0 a onClick Hal eq_refl Hact Hdeps) as [Htr Hout].
  cbn [settle]. destruct (commit f0) as [tr f1]. cbn [fst snd] in *. subst tr.
  split; [done|].
  destruct (onClick (row a)); destruct Hout as [Hra Hal1].
  - destruct (settle_idle n f1 Hal1 Hra) as (Htr' & Hra' & _).
    destruct (settle n f1) as [tr' f2]. cbn [fst snd] in *. by subst tr'.
  - rewrite (settle_dead n f1 Hal1). done.
Qed.

Lemma link_auto_clear_witness :
  let a := {| oid := 0; action := link (λ _, Returns); row := sampleRow |} in
  let f0 := setPendingAction (Some a) (commit (mount sampleProps)).2 in
  (settle 3 f0).1 = [call_onClick sampleRow]
  ∧ rowAction (state (settle 3 f0).2) = None.
Proof.
  pose proof (link_auto_clear (commit (mount sampleProps)).2
                {| oid := 0; action := link (λ _, Returns); row := sampleRow |}
                (λ _, Returns) 2 eq_refl eq_refl ltac:(discriminate)) as H.
  cbv zeta in H. destruct H as (_ & _ & H1 & _ & H2). split; [exact H1 | exact H2].
Defined.

(** C4 as stated fails for a [link] action whose [onClick] throws: a
    confirmation dialog is open, the link action replaces it, [onClick] is
    called once, and the slot still holds the link action after the
    reaction and after the cycles that follow. *)
Lemma link_with_throwing_onClick_stays_pending :
  let f := (commit (dispatch sampleConfirm sampleRow (commit (mount sampleProps)).2)).2 in
  let a := {| oid := 1; action := link (λ _, Throws); row := ∅ |} in
  let f0 := setPendingAction (Some a) f in
  (settle 3 f0).1 = [call_onClick ∅]
  ∧ rowAction (state (commit f0).2) = Some a
  ∧ rowAction (state (settle 3 f0).2) = Some a.
Proof. cbv zeta. split; [reflexivity|]. split; reflexivity. Qed.

(** C3 (as amended): the reaction to a [link] action calls [onClick] once;
    the slot is emptied when the call returns, and keeps the action when
    the call throws, the exception leaving the reaction before
    [setRowAction(null)].  A dialog action is not called by the reaction;
    the slot is emptied by the [setDialogOpen] given to the dialog. *)
Theorem pending_slot_after_callback (f : Fiber) (a : TanstackTableRowActionsType)
    (r : Row) :
  wf f → alive f = true →
  let f0 := dispatch a r f in
  match a with
  | link onClick =>
      (commit f0).1 = [call_onClick r]
      ∧ match onClick r with
        | Returns => rowAction (state (commit f0).2) = None
                     ∧ alive (commit f0).2 = true
        | Throws => rowAction (state (commit f0).2) = rowAction (state f0)
                    ∧ alive (commit f0).2 = false
        end
  | _ =>
      (commit f0).1 = []
      ∧ rowAction (state (commit f0).2) = rowAction (state f0)
      ∧ rowAction (state (setDialogOpen (commit f0).2)) = None
  end.
Proof.
  intros Hwf Hal f0. subst f0. destruct a as [onClick| |].
  - rewrite (commit_dispatch_link f onClick r Hwf Hal).
    destruct (onClick r); cbn; done.
  - edestruct (commit_dispatch_dialog f) as (-> & -> & _); [done| |done]. done.
  - edestruct (commit_dispatch_dialog f) as (-> & -> & _); [done| |done]. done.
Qed.

Lemma pending_slot_after_callback_witness :
  let f0 := dispatch (link (λ _, Returns)) sampleRow (mount sampleProps) in
  (commit f0).1 = [call_onClick sampleRow]
  ∧ rowAction (state (commit f0).2) = None
  ∧ alive (commit f0).2 = true.
Proof.
  exact (pending_slot_after_callback (mount sampleProps) (link (λ _, Returns)) sampleRow
           (wf_mount sampleProps) eq_refl).
Defined.

(** C3 as stated fails: [onClick] throws, it has been invoked, and the
    slot still holds the action, in this reaction and in every later one. *)
Lemma throwing_onClick_keeps_pending_action :
  let f0 := dispatch (link (λ _, Throws)) sampleRow (commit (mount sampleProps)).2 in
  (commit f0).1 = [call_onClick sampleRow]
  ∧ rowAction (state (commit f0).2)
    = Some {| oid := 0; action := link (λ _, Throws); row := sampleRow |}
  ∧ rowAction (state (settle 5 f0).2) ≠ None.
Proof. cbv zeta. split; [reflexivity|]. split; [reflexivity|]. discriminate. Qed.

End TanstackTableFacts.

(** * Properties of [DataTable] *)
Section DataTableFacts.
Import DataTable.

(** *** The heap *)

Lemma fresh_not_allocated (h : gmap nat Arr) : h !! fresh (dom h) = None.
Proof. apply not_elem_of_dom, is_fresh. Qed.

Lemma alloc_preserves (h : gmap nat Arr) (a : Arr) (l : loc) :
  is_Some (h !! l) → <[fresh (dom h) := a]> h !! l = h !! l.
Proof.
  intros Hl. apply lookup_insert_ne. intros Heq. subst l.
  rewrite fresh_not_allocated in Hl. by destruct Hl.
Qed.

Lemma rowsAt_alloc (h : gmap nat Arr) (rs : list Row) :
  rowsAt (<[fresh (dom h) := RowsArr rs]> h) (fresh (dom h)) = rs.
Proof. unfold rowsAt. by rewrite lookup_insert_eq. Qed.

Lemma filtersAt_alloc (h : gmap nat Arr) (fs : list ColumnFilter) :
  filtersAt (<[fresh (dom h) := FiltersArr fs]> h) (fresh (dom h)) = fs.
Proof. unfold filtersAt. by rewrite lookup_insert_eq. Qed.

(** *** Functional updates of the snapshot *)

Lemma setTableDataWith_run (g : list Row → list Row) (f : Fiber) :
  setTableDataWith g f
  = ([],
     {| props := props f;
        heap := <[fresh (dom (heap f)) := RowsArr (g (snapshot f))]> (heap f);
        state := {| tableData := fresh (dom (heap f)); isOpen := isOpen (state f);
                    rowSelection := rowSelection (state f);
                    filteredColumns := filteredColumns (state f);
                    pageIndex := pageIndex (state f) |};
        loadingDeps := loadingDeps f; dataUpdateDeps := dataUpdateDeps f;
        fetchDeps := fetchDeps f |},
     Some tt).
Proof. reflexivity. Qed.

Lemma snapshot_setTableDataWith (g : list Row → list Row) (f : Fiber) :
  snapshot (after (setTableDataWith g) f) = g (snapshot f).
Proof.
  unfold after. rewrite setTableDataWith_run. unfold snapshot. cbn [fst snd heap state tableData].
  apply rowsAt_alloc.
Qed.

(** [filter] with the test [index !== rowIndex] removes the element at
    [rowIndex]. *)
Lemma filteri_ext {A} (p q : A → nat → bool) (l : list A) :
  (∀ x i, p x i = q x i) → filteri p l = filteri q l.
Proof.
  revert p q. induction l as [|x l IH]; intros p q Hpq; cbn [filteri]; [done|].
  rewrite Hpq, (IH (λ y i, p y (S i)) (λ y i, q y (S i))); [done|].
  intros; apply Hpq.
Qed.

Lemma filteri_all {A} (p : A → nat → bool) (l : list A) :
  (∀ x i, p x i = true) → filteri p l = l.
Proof.
  revert p. induction l as [|x l IH]; intros p Hp; cbn [filteri]; [done|].
  rewrite Hp, IH; [done|]. intros; apply Hp.
Qed.

Lemma filteri_index_ne {A} (l : list A) (rowIndex : nat) :
  filteri (λ _ index, bool_decide (index ≠ rowIndex)) l = delete rowIndex l.
Proof.
  revert rowIndex. induction l as [|x l IH]; intros [|j]; cbn [filteri]; try done.
  - rewrite bool_decide_eq_false_2 by (intros H; by apply H).
    apply filteri_all. intros _ i. by apply bool_decide_eq_true_2.
  - rewrite bool_decide_eq_true_2 by done. cbn [delete list_delete]. f_equal.
    rewrite <- IH. apply filteri_ext. intros _ i.
    apply bool_decide_ext. lia.
Qed.

(** *** Row edits through the metadata channel *)

Lemma after_updateData (rowIndex : nat) (columnId : string) (value : Value) (f : Fiber) :
  snapshot (after (updateData rowIndex columnId value) f)
  = imap (λ index row,
      if bool_decide (index = rowIndex) then <[columnId := value]> row else row)
      (snapshot f).
Proof. unfold updateData. apply snapshot_setTableDataWith. Qed.

(** C10: [updateData(i, f, v)] gives a snapshot of the same length; rows at
    other indices are the old rows; the row at [i] has field [f] set to [v]
    and its other fields unchanged; the selection, the props and every array
    already in the heap are left as they were, and no callback is called. *)
Theorem updateData_frame (f : Fiber) (rowIndex : nat) (columnId : string) (value : Value) :
  let f' := after (updateData rowIndex columnId value) f in
  length (snapshot f') = length (snapshot f)
  ∧ (∀ j, j ≠ rowIndex → snapshot f' !! j = snapshot f !! j)
  ∧ (∀ row, snapshot f !! rowIndex = Some row →
       ∃ row', snapshot f' !! rowIndex = Some row'
               ∧ row' !! columnId = Some value
               ∧ ∀ k, k ≠ columnId → row' !! k = row !! k)
  ∧ rowSelection (state f') = rowSelection (state f)
  ∧ props f' = props f
  ∧ (∀ l, is_Some (heap f !! l) → heap f' !! l = heap f !! l)
  ∧ calls (updateData rowIndex columnId value) f = [].
Proof.
  intros f'. subst f'. rewrite after_updateData.
  split; [apply length_imap|]. split; [|split; [|split; [|split; [|split]]]].
  - intros j Hj. rewrite list_lookup_imap.
    rewrite bool_decide_eq_false_2 by done. by destruct (snapshot f !! j).
  - intros row Hrow. exists (<[columnId := value]> row).
    rewrite list_lookup_imap, Hrow. cbn [fmap option_fmap option_map].
    rewrite bool_decide_eq_true_2 by done. split; [done|]. split.
    + apply lookup_insert_eq.
    + intros k Hk. by apply lookup_insert_ne.
  - reflexivity.
  - reflexivity.
  - intros l Hl. unfold updateData, after. rewrite setTableDataWith_run.
    cbn [fst snd heap]. by apply alloc_preserves.
  - reflexivity.
Qed.

Lemma removeRow_run (rowIndex : nat) (f : Fiber) :
  let f1 := after (setTableDataWith
                     (filteri (λ _row index, bool_decide (index ≠ rowIndex)))) f in
  removeRow rowIndex f
  = if isLoading (props f) then ([], f1, Some tt)
    else ([], after (setRowSelection (NewValue ∅)) f1, Some tt).
Proof.
  cbv zeta. unfold removeRow, resetRowSelection, onRowSelectionChange, after.
  unfold mbind, Eff_bind, bind. rewrite setTableDataWith_run.
  cbn [get fst snd props]. by destruct (isLoading (props f)).
Qed.

(** C7 (as amended): [removeRow(i)] gives the old snapshot without the row
    at index [i], one row shorter and in the old order; the selection is
    reset to empty when no load is in flight, and is left as it was while
    one is. *)
Theorem removeRow_snapshot_and_selection (f : Fiber) (rowIndex : nat) :
  rowIndex < length (snapshot f) →
  let f' := after (removeRow rowIndex) f in
  snapshot f' = take rowIndex (snapshot f) ++ drop (S rowIndex) (snapshot f)
  ∧ S (length (snapshot f')) = length (snapshot f)
  ∧ (∀ j : nat, (j < rowIndex)%nat → snapshot f' !! j = snapshot f !! j)
  ∧ (∀ j : nat, (rowIndex ≤ j)%nat → snapshot f' !! j = snapshot f !! S j)
  ∧ rowSelection (state f')
    = (if isLoading (props f) then rowSelection (state f) else ∅).
Proof.
  intros Hlt f'.
  assert (Hsnap : snapshot f' = delete rowIndex (snapshot f)).
  { subst f'. unfold after at 1. rewrite removeRow_run.
    rewrite <- filteri_index_ne.
    destruct (isLoading (props f)); cbn [fst snd];
      [|change (snapshot (after (setRowSelection _) ?g)) with (snapshot g)];
      apply snapshot_setTableDataWith. }
  rewrite Hsnap. split; [apply delete_take_drop|]. split; [|split; [|split]].
  - rewrite length_delete by by apply lookup_lt_is_Some. lia.
  - intros j Hj. by apply list_lookup_delete_lt.
  - intros j Hj. by apply list_lookup_delete_ge.
  - subst f'. unfold after at 1. rewrite removeRow_run.
    by destruct (isLoading (props f)).
Qed.

(** C8: while a load is in flight the selection setter changes nothing at
    all and raises nothing; otherwise it applies the requested selection
    (a value, or a function of the old selection) and touches no other
    slot. *)
Theorem onRowSelectionChange_guard (f : Fiber) (row : Updater) :
  let f' := after (onRowSelectionChange row) f in
  (onRowSelectionChange row f).2 = Some tt
  ∧ calls (onRowSelectionChange row) f = []
  ∧ rowSelection (state f')
    = (if isLoading (props f) then rowSelection (state f)
       else applyUpdater row (rowSelection (state f)))
  ∧ (if isLoading (props f) then f' = f
     else snapshot f' = snapshot f ∧ tableData (state f') = tableData (state f)
          ∧ heap f' = heap f ∧ props f' = props f).
Proof.
  cbv zeta. unfold onRowSelectionChange, after, calls.
  unfold mbind, Eff_bind, bind. cbn [get fst snd].
  destruct (isLoading (props f)); cbn; done.
Qed.

Lemma removeRow_snapshot_and_selection_witness :
  S (length (snapshot (after (removeRow 2) idleTable))) = length (snapshot idleTable)
  ∧ rowSelection (state (after (removeRow 2) idleTable)) = ∅.
Proof.
  pose proof (removeRow_snapshot_and_selection idleTable 2
                ltac:(vm_compute; lia)) as H.
  cbv zeta in H. destruct H as (_ & Hlen & _ & _ & Hsel). split; [exact Hlen | exact Hsel].
Defined.

(** C7 as stated fails while a load is in flight: row 1 was selected before
    the reload began; removing index 2 of the 6 placeholder rows, and then
    index 2 of the 5 rows left, shortens the snapshot and leaves row 1
    selected. *)
Lemma removeRow_while_loading_keeps_selection :
  isLoading (props reloadingTable) = true
  ∧ length (snapshot reloadingTable) = 6
  ∧ length (snapshot (after (removeRow 2) reloadingTable)) = 5
  ∧ rowSelection (state (after (removeRow 2) reloadingTable)) !! "1" = Some true
  ∧ length (snapshot (after (removeRow 2;; removeRow 2) reloadingTable)) = 4
  ∧ rowSelection (state (after (removeRow 2;; removeRow 2) reloadingTable)) !! "1"
    = Some true.
Proof. vm_compute. repeat split. Qed.

(** *** The loading projection *)

Lemma loadingEffect_run (f : Fiber) :
  loadingEffect (props f) f
  = if isLoading (props f)
    then setTableDataWith (λ _, placeholderRows) f
    else setTableData (data (props f)) f.
Proof. unfold loadingEffect. by destruct (isLoading (props f)). Qed.

(** C5: while [isLoading], the projection makes the snapshot the six empty
    placeholder rows, whatever the real data, and every column keeps its id
    and header and gets the skeleton cell; projecting again gives the same
    shape.  Otherwise the snapshot is the caller's array itself and the
    columns are the declared ones.  In both cases the caller's array is not
    written and no callback is called. *)
Theorem loading_projection (columnsGenerator : AutoColumnsData → list ColumnDef)
    (f : Fiber) :
  is_Some (heap f !! data (props f)) →
  let p := props f in
  let f' := after (loadingEffect p) f in
  (if isLoading p then
     snapshot f' = replicate 6 ∅
     ∧ snapshot (after (loadingEffect p) f') = replicate 6 ∅
     ∧ Forall (λ c, cell c = SkeletonCell) (columns columnsGenerator p)
     ∧ map id (columns columnsGenerator p) = map id (declaredColumns columnsGenerator p)
     ∧ map header (columns columnsGenerator p)
       = map header (declaredColumns columnsGenerator p)
   else
     tableData (state f') = data p
     ∧ snapshot f' = rowsAt (heap f) (data p)
     ∧ columns columnsGenerator p = declaredColumns columnsGenerator p)
  ∧ heap f' !! data p = heap f !! data p
  ∧ calls (loadingEffect p) f = [].
Proof.
  intros Hdata p f'. subst p f'. unfold after, calls, columns.
  rewrite loadingEffect_run.
  destruct (isLoading (props f)) eqn:Hload.
  - rewrite setTableDataWith_run. cbn [fst snd].
    split; [|split; [by apply alloc_preserves | done]].
    split; [apply rowsAt_alloc|]. split.
    { match goal with |- snapshot (loadingEffect _ ?g).1.2 = _ =>
        replace (loadingEffect (props f) g) with (setTableDataWith (λ _, placeholderRows) g)
      end.
      - apply (snapshot_setTableDataWith (λ _, placeholderRows)).
      - unfold loadingEffect. by rewrite Hload. }
    split; [|split].
    + apply Forall_forall. intros c Hc. apply list_elem_of_fmap in Hc as (c0 & -> & _). done.
    + rewrite <- list_fmap_compose. by apply list_fmap_ext.
    + rewrite <- list_fmap_compose. by apply list_fmap_ext.
  - cbn. done.
Qed.

Lemma loading_projection_witness :
  snapshot (after (loadingEffect (sampleProps true)) (mount (sampleProps true) sampleHeap))
  = replicate 6 ∅.
Proof.
  pose proof (loading_projection (λ _, []) (mount (sampleProps true) sampleHeap)
                ltac:(vm_compute; eauto)) as H.
  cbv zeta in H. exact (proj1 (proj1 H)).
Defined.

(** *** The filter payload *)

Lemma split_nonempty (sep : ascii) (s : string) : split sep s ≠ [].
Proof.
  destruct s as [|c s]; cbn [split]; [done|].
  destruct (Ascii.eqb c sep); [done|]. by destruct (split sep s).
Qed.

(** Joining the segments with the separator gives the string back. *)
Lemma concat_split (sep : ascii) (s : string) :
  String.concat (String sep EmptyString) (split sep s) = s.
Proof.
  induction s as [|c s IH]; cbn [split]; [done|].
  pose proof (split_nonempty sep s) as Hne.
  destruct (Ascii.eqb c sep) eqn:Hc.
  - apply Ascii.eqb_eq in Hc as ->.
    destruct (split sep s) as [|seg segs]; [done|].
    change (String.concat ?d (EmptyString :: seg :: segs))
      with (String sep (String.concat d (seg :: segs))).
    by rewrite IH.
  - destruct (split sep s) as [|seg segs]; [done|].
    rewrite <- IH. by destruct segs.
Qed.

(** No segment contains the separator. *)
Lemma split_no_sep (sep : ascii) (s : string) :
  Forall (λ seg, sep ∉ list_ascii_of_string seg) (split sep s).
Proof.
  induction s as [|c s IH]; cbn [split].
  - repeat constructor. cbn. apply not_elem_of_nil.
  - destruct (Ascii.eqb c sep) eqn:Hc.
    + constructor; [cbn; apply not_elem_of_nil | done].
    + apply Ascii.eqb_neq in Hc.
      destruct (split sep s) as [|seg segs].
      * repeat constructor. cbn. rewrite elem_of_cons. intros [?|H]; [done|].
        by apply not_elem_of_nil in H.
      * apply Forall_cons in IH as [Hseg Hsegs]. constructor; [|done].
        cbn. rewrite elem_of_cons. intros [?|?]; [by apply Hc | done].
Qed.

Lemma truthy_spec (s : string) : truthy s = true ↔ s ≠ "".
Proof.
  unfold truthy. rewrite negb_true_iff. split.
  - intros H ->. by rewrite String.eqb_refl in H.
  - intros H. by apply String.eqb_neq.
Qed.

Lemma entries_assign (key k : string) (v : FilterValue) (o : FilterColumnResult) :
  entries (assign key v o) !! k
  = if bool_decide (key = k ∧ key ≠ "__proto__") then Some v else entries o !! k.
Proof.
  unfold assign. case_bool_decide as Hp.
  - rewrite bool_decide_eq_false_2 by (by intros [_ ?]). by destruct v.
  - cbn [entries]. case_bool_decide as Hk.
    + destruct Hk as [-> _]. apply lookup_insert_eq.
    + apply lookup_insert_ne. intros ->. by apply Hk.
Qed.

Lemma buildFilter_fold_notin (fs : list ColumnFilter) (acc : FilterColumnResult)
    (k : string) :
  k ∉ map name fs →
  entries (fold_left (λ filter column, assign (name column) (filterEntry column) filter)
             fs acc) !! k
  = entries acc !! k.
Proof.
  revert acc. induction fs as [|x fs IH]; intros acc Hk; cbn [fold_left]; [done|].
  cbn [map] in Hk. apply not_elem_of_cons in Hk as [Hne Hk].
  rewrite IH, entries_assign by done.
  rewrite bool_decide_eq_false_2; [done|]. intros [? _]. by apply Hne.
Qed.

(** No filter gets an entry under ["__proto__"]. *)
Lemma buildFilter_fold_proto_key (fs : list ColumnFilter) (acc : FilterColumnResult) :
  entries (fold_left (λ filter column, assign (name column) (filterEntry column) filter)
             fs acc) !! "__proto__"
  = entries acc !! "__proto__".
Proof.
  revert acc. induction fs as [|x fs IH]; intros acc; cbn [fold_left]; [done|].
  rewrite IH, entries_assign.
  rewrite bool_decide_eq_false_2; [done|]. intros [-> H]. by apply H.
Qed.

(** The entry under a name is the one of the last filter of that name. *)
Lemma buildFilter_fold_last (fs1 fs2 : list ColumnFilter) (column : ColumnFilter)
    (acc : FilterColumnResult) :
  name column ≠ "__proto__" → name column ∉ map name fs2 →
  entries (fold_left (λ filter column, assign (name column) (filterEntry column) filter)
             (fs1 ++ column :: fs2) acc) !! name column
  = Some (filterEntry column).
Proof.
  intros Hp Hlast. rewrite fold_left_app. cbn [fold_left].
  rewrite buildFilter_fold_notin, entries_assign by done.
  by rewrite bool_decide_eq_true_2.
Qed.

(** When a name is committed twice, the later filter is the one sent. *)
Lemma buildFilter_last_wins (fs : list ColumnFilter) (column : ColumnFilter) :
  name column ≠ "__proto__" →
  entries (buildFilter (fs ++ [column])) !! name column = Some (filterEntry column).
Proof.
  intros Hp. unfold buildFilter. apply buildFilter_fold_last; [done|].
  apply not_elem_of_nil.
Qed.

(** *** Reaction cycles *)

Lemma rowsAt_alloc_other (h : gmap nat Arr) (a : Arr) (l : loc) :
  is_Some (h !! l) → rowsAt (<[fresh (dom h) := a]> h) l = rowsAt h l.
Proof. intros Hl. unfold rowsAt. by rewrite alloc_preserves. Qed.

Lemma filtersAt_alloc_other (h : gmap nat Arr) (a : Arr) (l : loc) :
  is_Some (h !! l) → filtersAt (<[fresh (dom h) := a]> h) l = filtersAt h l.
Proof. intros Hl. unfold filtersAt. by rewrite alloc_preserves. Qed.

Ltac run_commit :=
  cbv [commit when loadingEffect dataUpdateEffect fetchEffect setTableData setIsOpen
       newArray mbind Eff_bind bind mret Eff_ret ret get modify invoke
       withState withHeap withDeps calls after snapshot settled
       props heap state loadingDeps dataUpdateDeps fetchDeps
       tableData isOpen rowSelection filteredColumns pageIndex fst snd].

Ltac commit_cases p d1 d2 d3 :=
  destruct (depsChanged d1 _), (isLoading p), (depsChanged d2 _), (onDataUpdate p),
    (depsChanged d3 _), (fetchRequest p).

(** A reaction cycle never throws. *)
Lemma commit_total (f : Fiber) : commit f = (calls commit f, after commit f, Some tt).
Proof.
  destruct f as [p h [td io rs fc pi] d1 d2 d3]. run_commit.
  commit_cases p d1 d2 d3; reflexivity.
Qed.

Lemma settle_S (n : nat) (f : Fiber) :
  calls (settle (S n)) f = calls commit f ++ calls (settle n) (after commit f)
  ∧ after (settle (S n)) f = after (settle n) (after commit f).
Proof.
  pose proof (commit_total f) as Hc.
  unfold calls, after in *. cbn [settle]. unfold mbind, Eff_bind, bind.
  destruct (commit f) as [[tr f1] r]. cbn [fst snd] in *. injection Hc as ->.
  by destruct (settle n f1) as [[tr' f2] r'].
Qed.

Lemma commit_settled (f : Fiber) :
  settled f → calls commit f = [] ∧ after commit f = f.
Proof.
  destruct f as [p h [td io rs fc pi] d1 d2 d3]. run_commit.
  intros (-> & -> & ->). unfold depsChanged.
  rewrite !bool_decide_eq_false_2 by (intros H; by apply H). done.
Qed.

Lemma settle_settled (n : nat) (f : Fiber) :
  settled f → calls (settle n) f = [] ∧ after (settle n) f = f.
Proof.
  intros Hs. induction n as [|n [IHc IHa]]; [done|].
  destruct (settle_S n f) as [-> ->].
  destruct (commit_settled f Hs) as [-> ->]. by rewrite IHc, IHa.
Qed.

(** The fiber stays within the heap. *)
Lemma allocated_mount (p : Props) (h : gmap nat Arr) :
  is_Some (h !! data p) → allocated (mount p h).
Proof.
  intros Hd. unfold allocated, mount. cbn.
  rewrite alloc_preserves by done. rewrite lookup_insert_eq. eauto.
Qed.

Lemma allocated_commit (f : Fiber) : allocated f → allocated (after commit f).
Proof.
  destruct f as [p h [td io rs fc pi] d1 d2 d3]. unfold allocated. run_commit.
  intros (Hd & Htd & Hfc).
  commit_cases p d1 d2 d3; cbn;
    rewrite ?lookup_insert_eq, ?alloc_preserves by done; eauto.
Qed.

Lemma allocated_setTableDataWith (g : list Row → list Row) (f : Fiber) :
  allocated f → allocated (after (setTableDataWith g) f).
Proof.
  intros (Hd & Htd & Hfc). unfold allocated, after. rewrite setTableDataWith_run. cbn.
  rewrite lookup_insert_eq, !alloc_preserves by done. eauto.
Qed.

(** The [fetchRequest] calls of one reaction cycle. *)
Lemma commit_fetchCalls (f : Fiber) :
  is_Some (heap f !! filteredColumns (state f)) →
  fetchCalls (calls commit f)
  = if depsChanged (fetchDeps f) (pageIndex (state f), filteredColumns (state f))
    then match fetchRequest (props f) with
         | Some _ => [(pageIndex (state f),
                       buildFilter (filtersAt (heap f) (filteredColumns (state f))))]
         | None => []
         end
    else [].
Proof.
  destruct f as [p h [td io rs fc pi] d1 d2 d3]. cbn [heap state filteredColumns].
  intros Hfc. run_commit.
  commit_cases p d1 d2 d3; cbn [app fetchCalls omap list_omap];
    rewrite ?filtersAt_alloc_other by done; reflexivity.
Qed.

(** The cycle in which the loading effect is due, while [isLoading]. *)
Lemma commit_loading_due (f : Fiber) :
  isLoading (props f) = true →
  loadingDeps f ≠ Some (true, data (props f)) →
  let f1 := after commit f in
  props f1 = props f
  ∧ heap f1 = <[fresh (dom (heap f)) := RowsArr placeholderRows]> (heap f)
  ∧ tableData (state f1) = fresh (dom (heap f))
  ∧ loadingDeps f1 = Some (true, data (props f))
  ∧ dataUpdateDeps f1 = Some (tableData (state f), onDataUpdate (props f))
  ∧ fetchDeps f1 = Some (pageIndex (state f1), filteredColumns (state f1)).
Proof.
  destruct f as [p h [td io rs fc pi] d1 d2 d3]. run_commit.
  intros -> Hd1.
  assert (depsChanged d1 (true, data p) = true) as ->
    by by apply bool_decide_eq_true_2.
  destruct (depsChanged d2 _), (onDataUpdate p), (depsChanged d3 _), (fetchRequest p);
    cbn; done.
Qed.

(** The cycle in which only the data-update effect is due. *)
Lemma commit_dataUpdate_due (f : Fiber) (g : FnId) :
  onDataUpdate (props f) = Some g →
  loadingDeps f = Some (isLoading (props f), data (props f)) →
  dataUpdateDeps f ≠ Some (tableData (state f), Some g) →
  fetchDeps f = Some (pageIndex (state f), filteredColumns (state f)) →
  calls commit f = [call_onDataUpdate (tableData (state f)) (snapshot f)]
  ∧ snapshot (after commit f) = snapshot f
  ∧ tableData (state (after commit f)) = tableData (state f)
  ∧ settled (after commit f).
Proof.
  destruct f as [p h [td io rs fc pi] d1 d2 d3]. run_commit.
  intros Hcb -> Hd2 ->. rewrite !Hcb.
  assert (depsChanged d2 (td, Some g) = true) as ->
    by by apply bool_decide_eq_true_2.
  unfold depsChanged.
  rewrite !bool_decide_eq_false_2 by (intros H; by apply H).
  cbn. by rewrite Hcb.
Qed.

(** *** The placeholder snapshot and [onDataUpdate] *)

(** C2 (as amended): when a load begins (at mount, or when [isLoading] or
    [data] changes), the reaction cycles that follow leave the snapshot
    equal to the six empty placeholder rows, and [onDataUpdate], notified of
    every change of the snapshot, is called last with that placeholder
    array as its argument. *)
Theorem placeholder_snapshot_reported (f : Fiber) (g : FnId) (n : nat) :
  isLoading (props f) = true →
  onDataUpdate (props f) = Some g →
  loadingDeps f ≠ Some (true, data (props f)) →
  is_Some (heap f !! tableData (state f)) →
  let f' := after (settle (2 + n)) f in
  snapshot f' = replicate 6 ∅
  ∧ last (dataUpdateCalls (calls (settle (2 + n)) f))
    = Some (tableData (state f'), replicate 6 ∅)
  ∧ settled f'.
Proof.
  intros Hload Hcb Hdue Halloc f'. subst f'.
  destruct (commit_loading_due f Hload Hdue) as (Hp & Hh & Htd & Hd1 & Hd2 & Hd3).
  set (f1 := after commit f) in *.
  assert (Hsnap1 : snapshot f1 = replicate 6 ∅).
  { unfold snapshot. rewrite Hh, Htd. apply rowsAt_alloc. }
  destruct (commit_dataUpdate_due f1 g) as (Hc2 & Hsnap2 & Htd2 & Hset).
  - by rewrite Hp.
  - by rewrite Hp, Hload.
  - rewrite Hd2, Htd. intros [= Heq _]. rewrite Heq in Halloc.
    rewrite fresh_not_allocated in Halloc. by destruct Halloc.
  - done.
  - set (f2 := after commit f1) in *.
    destruct (settle_settled n f2 Hset) as [Hcn Han].
    change (2 + n) with (S (S n)).
    destruct (settle_S (S n) f) as [-> ->]. fold f1.
    destruct (settle_S n f1) as [-> ->]. fold f2.
    rewrite Hcn, Han, Hc2, app_nil_r.
    split; [by rewrite Hsnap2|]. split; [|done].
    unfold dataUpdateCalls. rewrite omap_app. cbn [omap list_omap].
    by rewrite last_snoc, Htd2, Hsnap1.
Qed.

Lemma placeholder_snapshot_reported_witness :
  let f := mount (sampleProps true) sampleHeap in
  last (dataUpdateCalls (calls (settle 3) f))
  = Some (tableData (state (after (settle 3) f)), replicate 6 ∅).
Proof.
  pose proof (placeholder_snapshot_reported (mount (sampleProps true) sampleHeap) 2 1
                eq_refl eq_refl ltac:(discriminate) ltac:(vm_compute; eauto)) as H.
  cbv zeta in H. exact (proj1 (proj2 H)).
Defined.

(** C2 as stated fails: mounted with [isLoading], the table calls
    [onDataUpdate] first with the caller's array and then with the
    placeholder array. *)
Lemma onDataUpdate_receives_placeholder :
  let f := mount (sampleProps true) sampleHeap in
  isLoading (props f) = true
  ∧ snapshot (after (settle 3) f) = replicate 6 ∅
  ∧ dataUpdateCalls (calls (settle 3) f) = [(0, sampleRows); (2, replicate 6 ∅)].
Proof. vm_compute. repeat split. Qed.

(** *** The filter synchronisation *)

Lemma bind_silent {A B} (m : M A) (k : A → M B) (f f1 : Fiber) (a : A) :
  m f = ([], f1, Some a) →
  calls (m ≫= k) f = calls (k a) f1 ∧ after (m ≫= k) f = after (k a) f1.
Proof.
  intros H. unfold calls, after, mbind, Eff_bind, bind. rewrite H.
  by destruct (k a f1) as [[tr f2] r].
Qed.

Lemma fetchCalls_after_setPageIndex (f : Fiber) (g : FnId) (n : nat) :
  fetchRequest (props f) = Some g →
  is_Some (heap f !! filteredColumns (state f)) →
  fetchDeps f = Some (pageIndex (state f), filteredColumns (state f)) →
  n ≠ pageIndex (state f) →
  fetchCalls (calls (setPageIndex n;; commit) f)
  = [(n, buildFilter (filtersAt (heap f) (filteredColumns (state f))))].
Proof.
  intros Hreq Hfc Hdeps Hn.
  destruct (bind_silent (setPageIndex n) (λ _, commit) f
              (after (setPageIndex n) f) tt eq_refl) as [-> _].
  rewrite commit_fetchCalls by done.
  change (props (after (setPageIndex n) f)) with (props f). rewrite Hreq.
  change (fetchDeps (after (setPageIndex n) f)) with (fetchDeps f). rewrite Hdeps.
  unfold depsChanged. rewrite bool_decide_eq_true_2; [done|].
  intros [= Heq]. by apply Hn.
Qed.

Lemma fetchCalls_after_setFilteredColumns (f : Fiber) (g : FnId)
    (fs : list ColumnFilter) :
  fetchRequest (props f) = Some g →
  is_Some (heap f !! filteredColumns (state f)) →
  fetchDeps f = Some (pageIndex (state f), filteredColumns (state f)) →
  fetchCalls (calls (setFilteredColumns fs;; commit) f)
  = [(pageIndex (state f), buildFilter fs)].
Proof.
  intros Hreq Hfc Hdeps.
  destruct (bind_silent (setFilteredColumns fs) (λ _, commit) f
              (after (setFilteredColumns fs) f) tt eq_refl) as [-> _].
  rewrite commit_fetchCalls.
  - change (props (after (setFilteredColumns fs) f)) with (props f). rewrite Hreq.
    change (fetchDeps (after (setFilteredColumns fs) f)) with (fetchDeps f).
    rewrite Hdeps.
    change (filteredColumns (state (after (setFilteredColumns fs) f)))
      with (fresh (dom (heap f))).
    change (heap (after (setFilteredColumns fs) f))
      with (<[fresh (dom (heap f)) := FiltersArr fs]> (heap f)).
    rewrite filtersAt_alloc.
    unfold depsChanged. rewrite bool_decide_eq_true_2; [done|].
    intros [= Heq]. rewrite Heq in Hfc.
    rewrite fresh_not_allocated in Hfc. by destruct Hfc.
  - change (is_Some (<[fresh (dom (heap f)) := FiltersArr fs]> (heap f)
                       !! fresh (dom (heap f)))).
    rewrite lookup_insert_eq. eauto.
Qed.

(** C6 (as amended): the payload has, under each filter name other than
    ["__proto__"], the entry of the last committed filter of that name (of
    the filter itself when the names are distinct): the comma-separated
    segments of the value without the empty ones when the type is
    [select-multiple] or [select-async] (["a,b,,c"] gives [["a","b","c"]];
    the segments joined by commas are the value, and none contains a comma),
    and the value itself for any other type; it has no entry under other
    names.  A reaction cycle calls [fetchRequest], when supplied, with the
    page index and this payload exactly when the page index or the committed
    filters changed, so after every [setPageIndex] to another page and after
    every [setFilteredColumns]. *)
Theorem fetchRequest_filter_payload (f : Fiber) (g : FnId) :
  fetchRequest (props f) = Some g →
  is_Some (heap f !! filteredColumns (state f)) →
  let fs := filtersAt (heap f) (filteredColumns (state f)) in
  let page := pageIndex (state f) in
  (∀ fs1 column fs2,
     fs = fs1 ++ column :: fs2 →
     name column ≠ "__proto__" → name column ∉ map name fs2 →
     entries (buildFilter fs) !! name column
     = Some (if bool_decide (type column = "select-multiple"
                             ∨ type column = "select-async")
             then Segments (List.filter (λ seg, negb (String.eqb seg ""))
                                        (split "," (value column)))
             else Scalar (value column))
     ∧ String.concat "," (split "," (value column)) = value column
     ∧ Forall (λ seg, ","%char ∉ list_ascii_of_string seg) (split "," (value column)))
  ∧ (∀ k, k ∉ map name fs → entries (buildFilter fs) !! k = None)
  ∧ (∀ n, filterEntry {| name := n; value := "a,b,,c"; type := "select-multiple" |}
          = Segments ["a"; "b"; "c"])
  ∧ fetchCalls (calls commit f)
    = (if depsChanged (fetchDeps f) (page, filteredColumns (state f))
       then [(page, buildFilter fs)] else [])
  ∧ (fetchDeps f = Some (page, filteredColumns (state f)) →
     (∀ n, n ≠ page → fetchCalls (calls (setPageIndex n;; commit) f)
                      = [(n, buildFilter fs)])
     ∧ (∀ fs', fetchCalls (calls (setFilteredColumns fs';; commit) f)
               = [(page, buildFilter fs')])).
Proof.
  intros Hreq Hfc fs page. subst fs page.
  split; [|split; [|split; [|split]]].
  - intros fs1 column fs2 -> Hp Hlast. split; [|split].
    + unfold buildFilter. by rewrite buildFilter_fold_last.
    + apply concat_split.
    + apply split_no_sep.
  - intros k Hk. unfold buildFilter. by rewrite buildFilter_fold_notin.
  - reflexivity.
  - rewrite commit_fetchCalls by done. by rewrite Hreq.
  - intros Hdeps. split.
    + intros n Hn. by apply (fetchCalls_after_setPageIndex f g).
    + intros fs'. by apply (fetchCalls_after_setFilteredColumns f g).
Qed.

Lemma fetchRequest_filter_payload_witness :
  entries (buildFilter sampleFilters) !! "status"
  = Some (Segments ["active"; "pending"])
  ∧ fetchCalls (calls commit (mount (sampleProps false) sampleHeap))
    = [(0, buildFilter sampleFilters)].
Proof.
  pose proof (fetchRequest_filter_payload (mount (sampleProps false) sampleHeap) 1
                eq_refl ltac:(vm_compute; eauto)) as H.
  cbv zeta in H. destruct H as (Hentry & _ & _ & Hcall & _). split.
  - exact (proj1 (Hentry []
                    {| name := "status"; value := "active,pending";
                       type := "select-multiple" |}
                    [ {| name := "name"; value := "a,b"; type := "text" |} ]
                    eq_refl ltac:(discriminate)
                    ltac:(refine (bool_decide_unpack _ _); vm_compute; exact I))).
  - exact Hcall.
Defined.

(** C6 as stated fails: of two committed filters named "status" only the
    value of the later one is sent, and a filter named "__proto__" is sent
    under no name; this payload is what [fetchRequest] gets at mount. *)
Lemma filter_payload_misses_filters :
  let fs := [ {| name := "status"; value := "active"; type := "text" |};
              {| name := "status"; value := "done"; type := "text" |};
              {| name := "__proto__"; value := "x"; type := "text" |} ] in
  let p := {| columnsData := Custom sampleColumns; data := 0; isLoading := false;
              rowCount := None; fetchRequest := Some 1; renderSubComponent := None;
              onDataUpdate := None; detailedFilter := Some fs |} in
  entries (buildFilter fs) !! "status" = Some (Scalar "done")
  ∧ entries (buildFilter fs) !! "__proto__" = None
  ∧ fetchCalls (calls commit (mount p sampleHeap)) = [(0, buildFilter fs)].
Proof. vm_compute. repeat split. Qed.

(** *** The empty body *)

(** C1 (as amended): with no rows in the row model the body is one
    placeholder row.  In [TanstackTable] it spans the declared columns (the
    actions column is not counted; 3 for 3 columns) and reads
    "No data results".  In [DataTable] it spans the columns plus one, whether
    or not rows can be expanded (4 for 3 columns), and reads "No results.".
    With rows, no placeholder row is rendered. *)
Theorem no_results_row (columnsGenerator : AutoColumnsData → list ColumnDef)
    (ps : TanstackTable.Props) (pd : Props) :
  TanstackTable.renderBody ps []
  = [TanstackTable.NoResultsRow (length (TanstackTable.columns ps)) "No data results"]
  ∧ renderBody columnsGenerator pd []
    = [NoResultsRow (length (declaredColumns columnsGenerator pd) + 1) "No results."]
  ∧ (∀ rows, rows ≠ [] →
       ∀ n t, TanstackTable.NoResultsRow n t ∉ TanstackTable.renderBody ps rows)
  ∧ (∀ rows, rows ≠ [] →
       ∀ n t, NoResultsRow n t ∉ renderBody columnsGenerator pd rows).
Proof.
  split; [reflexivity|]. split; [|split].
  - unfold renderBody, columns. cbn [length bool_decide decide_rel].
    rewrite bool_decide_eq_false_2 by (intros H; by apply H).
    destruct (isLoading pd); [|done]. by rewrite length_map.
  - intros rows Hrows n t. unfold TanstackTable.renderBody.
    rewrite bool_decide_eq_true_2 by by destruct rows.
    intros Hin. apply list_elem_of_fmap in Hin as (r & Heq & _). discriminate.
  - intros rows Hrows n t. unfold renderBody.
    rewrite bool_decide_eq_true_2 by by destruct rows.
    rewrite list_elem_of_In, in_flat_map. intros (r & _ & Hin).
    apply list_elem_of_In in Hin.
    apply elem_of_cons in Hin as [Heq|Hin]; [discriminate|].
    destruct (getIsExpanded r && _).
    + apply list_elem_of_singleton in Hin. discriminate.
    + by apply elem_of_nil in Hin.
Qed.

(** C1 as stated fails for [DataTable]: 3 columns, no sub-component
    renderer, no rows; the placeholder row spans 4 columns. *)
Lemma no_results_row_spans_four_of_three :
  renderSubComponent (sampleProps false) = None
  ∧ length (columns (λ _, []) (sampleProps false)) = 3
  ∧ renderBody (λ _, []) (sampleProps false) [] = [NoResultsRow 4 "No results."].
Proof. repeat split. Qed.

End DataTableFacts.

(** * Further properties of [TanstackTable] *)
Section TanstackTableRuns.
Import TanstackTable.

(** *** The columns of the table *)

(** X1: the table columns are the declared columns, in order, followed by
    one column with id "actions" exactly when row actions are given; their
    ids are pairwise distinct exactly when the declared ids are and, with
    row actions, no declared column is itself called "actions".  The
    placeholder row of an empty body spans the declared columns only, one
    less than the table has when there are row actions. *)
Theorem tableColumns_shape (p : Props) :
  take (length (columns p)) (tableColumns p) = columns p
  ∧ length (tableColumns p) = length (columns p) + (match actions p with Some _ => 1 | None => 0 end)
  ∧ (∀ acts, actions p = Some acts →
       last (tableColumns p) = Some {| id := "actions"; cell := CellWithActions acts |})
  ∧ (NoDup (map id (tableColumns p))
     ↔ NoDup (map id (columns p))
       ∧ (is_Some (actions p) → "actions" ∉ map id (columns p)))
  ∧ renderBody p []
    = [NoResultsRow (length (tableColumns p) - (match actions p with Some _ => 1 | None => 0 end))
         "No data results"].
Proof.
  unfold tableColumns, renderBody. destruct (actions p) as [acts|]; cbn [length bool_decide].
  - split; [by rewrite take_app_length|]. split; [by rewrite length_app|].
    split; [intros ? [= <-]; apply last_snoc|]. split.
    + rewrite map_app. cbn [map id]. rewrite NoDup_app. split.
      * intros (Hnd & Hdis & _). split; [done|]. intros _ Hin.
        apply (Hdis _ Hin). by left.
      * intros [Hnd Hact]. split; [done|]. split; [|apply NoDup_singleton].
        intros x Hx Hx'. apply list_elem_of_singleton in Hx' as ->. by apply Hact.
    + rewrite bool_decide_eq_false_2 by (intros H; by apply H).
      rewrite length_app. cbn [length]. do 2 f_equal. lia.
  - split; [by rewrite firstn_all|]. split; [lia|]. split; [intros ?; discriminate|].
    split.
    + split; [intros H; split; [done|]; by intros [? ?] | by intros [? _]].
    + rewrite bool_decide_eq_false_2 by (intros H; by apply H).
      do 2 f_equal. lia.
Qed.

(** *** The dialogs *)

(** X2: at most one dialog is rendered; none is rendered exactly when the
    slot is empty or holds a [link] action; the [setDialogOpen] given to a
    dialog removes it; and a selected confirmation action is rendered, after
    the reaction, as one confirmation dialog carrying the target row and the
    action's texts and callbacks. *)
Theorem dialogs_follow_pending_action (f : Fiber) :
  (length (renderDialogs (state f)) ≤ 1)%nat
  ∧ (renderDialogs (state f) = []
     ↔ rowAction (state f) = None
       ∨ ∃ a c, rowAction (state f) = Some a ∧ action a = link c)
  ∧ renderDialogs (state (setDialogOpen f)) = []
  ∧ (alive f = true →
     ∀ r t d c x onConfirm onCancel,
       renderDialogs
         (state (commit (dispatch (confirmation_dialog t d c x onConfirm onCancel) r f)).2)
       = [TanstackTableConfirmationDialog r t d c x onConfirm onCancel]).
Proof.
  split; [|split; [|split]].
  - unfold renderDialogs. destruct (rowAction (state f)) as [[o [?| |] r]|]; cbn; lia.
  - unfold renderDialogs. destruct (rowAction (state f)) as [[o [c| |] r]|]; cbn; split;
      try done.
    + intros _. right. by eexists _, _.
    + intros [?|(a & c & [= <-] & H)]; [done | cbn in H; done].
    + intros [?|(a & c & [= <-] & H)]; [done | cbn in H; done].
    + intros _. by left.
  - reflexivity.
  - intros Hal r t d c x onConfirm onCancel.
    destruct (commit_dispatch_dialog f (confirmation_dialog t d c x onConfirm onCancel)
                r Hal) as (_ & Hra & _); [intros ?; discriminate|].
    unfold renderDialogs. by rewrite Hra.
Qed.

Lemma dialogs_follow_pending_action_witness :
  renderDialogs (state (commit (dispatch sampleConfirm sampleRow (mount sampleProps))).2)
  = [TanstackTableConfirmationDialog sampleRow "Delete" "Delete the row?" "Yes" "No"
       (λ _, Returns) None].
Proof.
  exact (proj2 (proj2 (proj2 (dialogs_follow_pending_action (mount sampleProps))))
           eq_refl sampleRow "Delete" "Delete the row?" "Yes" "No" (λ _, Returns) None).
Defined.

(** *** Runs of events *)

Lemma wf_settle (n : nat) (f : Fiber) : wf f → wf (settle n f).2.
Proof.
  revert f. induction n as [|n IH]; intros f Hwf; cbn [settle]; [done|].
  pose proof (wf_commit f Hwf) as Hc. destruct (commit f) as [tr f1].
  specialize (IH f1 Hc). by destruct (settle n f1) as [tr' f2].
Qed.

(** A reaction to anything but a [link] action calls nothing and changes
    no slot. *)
Lemma commit_no_link (f : Fiber) :
  alive f = true →
  (∀ a c, rowAction (state f) = Some a → action a ≠ link c) →
  (commit f).1 = [] ∧ state (commit f).2 = state f ∧ alive (commit f).2 = true.
Proof.
  intros Hal Hnl. unfold commit. rewrite Hal.
  destruct (depsChanged _ _); cbn [when]; [|done].
  destruct (rowAction (state f)) as [[o [c| |] r]|] eqn:Ha; cbn; try done.
  by destruct (Hnl _ c eq_refl).
Qed.

Lemma settle_no_link (n : nat) (f : Fiber) :
  alive f = true →
  (∀ a c, rowAction (state f) = Some a → action a ≠ link c) →
  (settle n f).1 = [] ∧ state (settle n f).2 = state f ∧ alive (settle n f).2 = true.
Proof.
  revert f. induction n as [|n IH]; intros f Hal Hnl; cbn [settle]; [done|].
  destruct (commit_no_link f Hal Hnl) as (Htr & Hst & Hal').
  destruct (commit f) as [tr f1]. cbn [fst snd] in *.
  destruct (IH f1 Hal' ltac:(by rewrite Hst)) as (Htr' & Hst' & Hal'').
  destruct (settle n f1) as [tr' f2]. cbn [fst snd] in *.
  subst. by rewrite Hst'.
Qed.

(** One event and the reaction cycles after it. *)
Lemma settle_handle (n : nat) (e : Event) (f : Fiber) :
  wf f → alive f = true → clicksReturn [e] →
  (settle (S n) (handle e f)).1 = clicksOf [e]
  ∧ (λ a, (action a, row a)) <$> rowAction (state (settle (S n) (handle e f)).2)
    = pendingOf e
  ∧ alive (settle (S n) (handle e f)).2 = true
  ∧ wf (settle (S n) (handle e f)).2.
Proof.
  intros Hwf Hal Hret. unfold clicksReturn in Hret. rewrite Forall_singleton in Hret.
  assert (Hwf' : wf (settle (S n) (handle e f)).2).
  { apply wf_settle. unfold handle. rewrite Hal.
    destruct e; [by apply wf_dispatch | by apply wf_setDialogOpen]. }
  split; [|split; [|split; [|done]]]; clear Hwf'; unfold handle; rewrite Hal.
  all: destruct e as [[onClick| |] r|].
  all: try (cbn [settle]; rewrite (commit_dispatch_link f onClick r Hwf Hal), Hret;
            match goal with |- context [settle ?m ?g] =>
              destruct (settle_idle m g eq_refl eq_refl) as (Htr & Hra & Hal');
              destruct (settle m g) as [tr' f2]
            end; cbn [fst snd] in *; subst; by rewrite ?Hra).
  all: match goal with |- context [settle ?m ?g] =>
         destruct (settle_no_link m g Hal) as (Htr & Hst & Hal');
         [ by intros ? ? [= <-] | rewrite ?Htr, ?Hst, ?Hal'; done ]
       end.
Qed.

Lemma run_invariant (n : nat) (es : list Event) (f : Fiber) :
  wf f → alive f = true → clicksReturn es →
  (run (S n) es f).1 = clicksOf es
  ∧ (λ a, (action a, row a)) <$> rowAction (state (run (S n) es f).2)
    = from_option pendingOf ((λ a, (action a, row a)) <$> rowAction (state f)) (last es)
  ∧ alive (run (S n) es f).2 = true
  ∧ wf (run (S n) es f).2.
Proof.
  revert f. induction es as [|e es IH]; intros f Hwf Hal Hret; [done|].
  apply Forall_cons in Hret as [He Hes].
  destruct (settle_handle n e f Hwf Hal ltac:(by constructor))
    as (Htr & Hp & Hal' & Hwf').
  cbn [run]. destruct (settle (S n) (handle e f)) as [tr f1]. cbn [fst snd] in *.
  destruct (IH f1 Hwf' Hal' Hes) as (Htr' & Hp' & Hal'' & Hwf'').
  destruct (run (S n) es f1) as [tr' f2]. cbn [fst snd] in *.
  split; [|split; [|done]].
  - subst tr tr'. unfold clicksOf. change (e :: es) with ([e] ++ es). by rewrite omap_app.
  - rewrite Hp'. destruct es as [|e' es]; [by rewrite Hp|].
    rewrite last_cons_cons. destruct (last (e' :: es)) eqn:El; [done|].
    by apply last_None in El.
Qed.

(** X3: in a run of selections and dialog closings, each followed by at
    least one reaction cycle, where the [onClick] of every selected [link]
    returns: [onClick] is called exactly once per selected [link], with its
    row and in the order of the selections, and no other callback is called;
    the slot then holds what the last event left (the last selected dialog
    action with its row, or nothing after a [link] or a closing), never two
    actions and never an action older than the last event. *)
Theorem run_calls_and_pending (n : nat) (es : list Event) (e : Event) (f : Fiber) :
  wf f → alive f = true → clicksReturn (es ++ [e]) →
  (run (S n) (es ++ [e]) f).1 = clicksOf (es ++ [e])
  ∧ (λ a, (action a, row a)) <$> rowAction (state (run (S n) (es ++ [e]) f).2)
    = pendingOf e
  ∧ alive (run (S n) (es ++ [e]) f).2 = true.
Proof.
  intros Hwf Hal Hret.
  destruct (run_invariant n (es ++ [e]) f Hwf Hal Hret) as (Htr & Hp & Hal' & _).
  rewrite last_snoc in Hp. done.
Qed.

Lemma run_calls_and_pending_witness :
  (run 2 sampleEvents (mount sampleProps)).1
  = [call_onClick sampleRow; call_onClick ∅]
  ∧ rowAction (state (run 2 sampleEvents (mount sampleProps)).2) = None.
Proof.
  pose proof (run_calls_and_pending 1 (take 4 sampleEvents)
                (select_action (link (λ _, Returns)) ∅) (mount sampleProps)
                (wf_mount sampleProps) eq_refl
                ltac:(repeat constructor)) as (H1 & H2 & _).
  split; [exact H1|].
  change (take 4 sampleEvents ++ [select_action (link (λ _, Returns)) ∅])
    with sampleEvents in H2.
  destruct (rowAction (state (run 2 sampleEvents (mount sampleProps)).2));
    [discriminate H2 | reflexivity].
Defined.

End TanstackTableRuns.

(** * Further properties of [DataTable] *)
Section DataTableReactions.
Import DataTable.

Ltac run_commit :=
  cbv [commit when loadingEffect dataUpdateEffect fetchEffect setTableData setIsOpen
       newArray mbind Eff_bind bind mret Eff_ret ret get modify invoke
       withState withHeap withDeps calls after snapshot settled
       props heap state loadingDeps dataUpdateDeps fetchDeps
       tableData isOpen rowSelection filteredColumns pageIndex fst snd].

Ltac commit_cases p d1 d2 d3 :=
  destruct (depsChanged d1 _), (isLoading p), (depsChanged d2 _), (onDataUpdate p),
    (depsChanged d3 _), (fetchRequest p).

Lemma depsChanged_same {D} `{EqDecision D} (d : D) : depsChanged (Some d) d = false.
Proof. unfold depsChanged. apply bool_decide_eq_false_2. intros H'. by apply H'. Qed.

Lemma depsChanged_ne {D} `{EqDecision D} (prev : option D) (d : D) :
  prev ≠ Some d → depsChanged prev d = true.
Proof. intros. unfold depsChanged. by apply bool_decide_eq_true_2. Qed.

(** *** Convergence of the reaction cycles *)

(** What one reaction cycle leaves alone, and the dependencies it records. *)
Lemma commit_frame (f : Fiber) :
  let f1 := after commit f in
  props f1 = props f
  ∧ rowSelection (state f1) = rowSelection (state f)
  ∧ pageIndex (state f1) = pageIndex (state f)
  ∧ filteredColumns (state f1) = filteredColumns (state f)
  ∧ loadingDeps f1 = Some (isLoading (props f), data (props f))
  ∧ dataUpdateDeps f1 = Some (tableData (state f), onDataUpdate (props f))
  ∧ fetchDeps f1 = Some (pageIndex (state f), filteredColumns (state f)).
Proof.
  destruct f as [p h [td io rs fc pi] d1 d2 d3]. run_commit.
  commit_cases p d1 d2 d3; cbn; done.
Qed.

Lemma commit_calls_bound (f : Fiber) :
  (length (fetchCalls (calls commit f)) ≤ 1)%nat
  ∧ (length (dataUpdateCalls (calls commit f)) ≤ 1)%nat.
Proof.
  destruct f as [p h [td io rs fc pi] d1 d2 d3]. run_commit.
  commit_cases p d1 d2 d3; cbn; lia.
Qed.

(** A cycle in which the loading and the fetch effects have nothing to do:
    it only notifies, and the fiber is settled after it. *)
Lemma commit_notify_only (f : Fiber) :
  loadingDeps f = Some (isLoading (props f), data (props f)) →
  fetchDeps f = Some (pageIndex (state f), filteredColumns (state f)) →
  settled (after commit f)
  ∧ tableData (state (after commit f)) = tableData (state f)
  ∧ heap (after commit f) = heap f
  ∧ fetchCalls (calls commit f) = []
  ∧ (length (dataUpdateCalls (calls commit f)) ≤ 1)%nat.
Proof.
  destruct f as [p h [td io rs fc pi] d1 d2 d3]. run_commit.
  intros -> ->. rewrite !depsChanged_same.
  destruct (depsChanged d2 _), (onDataUpdate p) eqn:Hcb; cbn; rewrite ?Hcb;
    repeat split; lia.
Qed.

(** X4: from any state, two reaction cycles settle the table: every effect
    has then seen its dependencies, further cycles call nothing and change
    nothing, and all the cycles together call [fetchRequest] at most once
    and [onDataUpdate] at most twice.  So the effects of lines 102-113 and
    177-188 cannot drive each other into a render loop. *)
Theorem reactions_converge (f : Fiber) (n : nat) :
  settled (after (settle (2 + n)) f)
  ∧ after (settle (2 + n)) f = after (settle 2) f
  ∧ calls (settle (2 + n)) f = calls (settle 2) f
  ∧ (length (fetchCalls (calls (settle (2 + n)) f)) ≤ 1)%nat
  ∧ (length (dataUpdateCalls (calls (settle (2 + n)) f)) ≤ 2)%nat.
Proof.
  destruct (commit_frame f) as (Hp & _ & Hpi & Hfc & Hd1 & _ & Hd3).
  destruct (commit_calls_bound f) as [Hb1 Hb2].
  set (f1 := after commit f) in *.
  destruct (commit_notify_only f1) as (Hset & _ & _ & Hf2 & Hu2).
  { by rewrite Hp. }
  { by rewrite Hpi, Hfc. }
  set (f2 := after commit f1) in *.
  destruct (settle_settled n f2 Hset) as [Hcn Han].
  assert (Hcalls : ∀ m, calls (settle (2 + m)) f
                        = calls commit f ++ calls commit f1 ++ calls (settle m) f2).
  { intros m. change (2 + m) with (S (S m)).
    destruct (settle_S (S m) f) as [-> _]. fold f1.
    by destruct (settle_S m f1) as [-> _]. }
  assert (Hafter : ∀ m, after (settle (2 + m)) f = after (settle m) f2).
  { intros m. change (2 + m) with (S (S m)).
    destruct (settle_S (S m) f) as [_ ->]. fold f1.
    by destruct (settle_S m f1) as [_ ->]. }
  rewrite Hafter, Han. split; [done|]. split; [symmetry; exact (Hafter 0)|].
  rewrite Hcalls, Hcn. split; [exact (eq_sym (Hcalls 0))|].
  unfold fetchCalls, dataUpdateCalls in *. rewrite !omap_app, !length_app.
  rewrite Hf2. cbn [omap list_omap length]. lia.
Qed.

Lemma settle_frame (n : nat) (f : Fiber) :
  props (after (settle n) f) = props f
  ∧ rowSelection (state (after (settle n) f)) = rowSelection (state f)
  ∧ pageIndex (state (after (settle n) f)) = pageIndex (state f)
  ∧ filteredColumns (state (after (settle n) f)) = filteredColumns (state f).
Proof.
  revert f. induction n as [|n IH]; intros f; [done|].
  destruct (settle_S n f) as [_ ->].
  destruct (commit_frame f) as (Hp & Hrs & Hpi & Hfc & _).
  destruct (IH (after commit f)) as (-> & -> & -> & ->). done.
Qed.

(** X5: new props and the reaction cycles they cause never touch the row
    selection, the page index or the committed filters: a selection made on
    the old rows survives new [data] and a reload. *)
Theorem reactions_keep_selection (f : Fiber) (p' : Props) (n : nat) :
  let f' := after (setProps p';; settle n) f in
  props f' = p'
  ∧ rowSelection (state f') = rowSelection (state f)
  ∧ pageIndex (state f') = pageIndex (state f)
  ∧ filteredColumns (state f') = filteredColumns (state f).
Proof.
  cbv zeta.
  destruct (bind_silent (setProps p') (λ _, settle n) f (withProps p' f) tt eq_refl)
    as [_ ->].
  destruct (settle_frame n (withProps p' f)) as (-> & -> & -> & ->). done.
Qed.

(** *** The first fetch *)

Lemma settle_no_fetch (n : nat) (f : Fiber) :
  loadingDeps f = Some (isLoading (props f), data (props f)) →
  fetchDeps f = Some (pageIndex (state f), filteredColumns (state f)) →
  fetchCalls (calls (settle n) f) = [].
Proof.
  intros Hd1 Hd3. destruct n as [|n]; [done|].
  destruct (settle_S n f) as [-> _].
  destruct (commit_notify_only f Hd1 Hd3) as (Hset & _ & _ & Hf & _).
  destruct (settle_settled n _ Hset) as [-> _].
  by rewrite app_nil_r.
Qed.

(** X6: the committed filters start as the entries of [detailedFilter] with
    a non-empty value, in their order (none without the prop); after mount,
    however many reaction cycles follow, [fetchRequest] has been called
    exactly once, with page 0 and the payload of those filters. *)
Theorem mount_fetches_once (p : Props) (h : gmap nat Arr) (g : FnId) (n : nat) :
  fetchRequest p = Some g →
  let f := mount p h in
  let fs := List.filter (λ i, negb (String.eqb (value i) ""))
                        (default [] (detailedFilter p)) in
  filtersAt (heap f) (filteredColumns (state f)) = fs
  ∧ Forall (λ c, value c ≠ "") fs
  ∧ fetchCalls (calls (settle (S n)) f) = [(0, buildFilter fs)].
Proof.
  intros Hreq f fs.
  assert (Hfs : filtersAt (heap f) (filteredColumns (state f)) = fs).
  { unfold f, mount. cbn [heap state filteredColumns]. rewrite filtersAt_alloc.
    subst fs. by destruct (detailedFilter p). }
  split; [done|]. split.
  - subst fs. apply Forall_forall. intros c Hc.
    apply list_elem_of_In, filter_In in Hc as [_ Hc].
    apply negb_true_iff, String.eqb_neq in Hc. done.
  - destruct (settle_S n f) as [-> _]. unfold fetchCalls. rewrite omap_app.
    fold (fetchCalls (calls commit f)).
    fold (fetchCalls (calls (settle n) (after commit f))).
    destruct (commit_frame f) as (Hp & _ & Hpi & Hfc & Hd1 & _ & Hd3).
    rewrite settle_no_fetch by (by rewrite ?Hp, ?Hpi, ?Hfc).
    rewrite commit_fetchCalls.
    + rewrite Hfs. change (props f) with p. rewrite Hreq. done.
    + unfold f, mount. cbn [heap state filteredColumns].
      rewrite lookup_insert_eq. eauto.
Qed.

Lemma mount_fetches_once_witness :
  fetchCalls (calls (settle 3) (mount (sampleProps true) sampleHeap))
  = [(0, buildFilter sampleFilters)].
Proof.
  exact (proj2 (proj2 (mount_fetches_once (sampleProps true) sampleHeap 1 2 eq_refl))).
Defined.

End DataTableReactions.

Section DataTableEdits.
Import DataTable.

Ltac run_commit :=
  cbv [commit when loadingEffect dataUpdateEffect fetchEffect setTableData setIsOpen
       newArray mbind Eff_bind bind mret Eff_ret ret get modify invoke
       withState withHeap withDeps calls after snapshot settled
       props heap state loadingDeps dataUpdateDeps fetchDeps
       tableData isOpen rowSelection filteredColumns pageIndex fst snd].

(** *** The snapshot after an edit *)

Lemma snapshot_removeRow (rowIndex : nat) (f : Fiber) :
  snapshot (after (removeRow rowIndex) f) = delete rowIndex (snapshot f).
Proof.
  unfold after at 1. rewrite removeRow_run, <- filteri_index_ne.
  destruct (isLoading (props f)); cbn [fst snd];
    [|change (snapshot (after (setRowSelection _) ?g)) with (snapshot g)];
    apply snapshot_setTableDataWith.
Qed.

Lemma snapshot_updateData (rowIndex : nat) (columnId : string) (value : Value)
    (f : Fiber) :
  snapshot (after (updateData rowIndex columnId value) f)
  = alter (<[columnId := value]>) rowIndex (snapshot f).
Proof.
  rewrite after_updateData. apply list_eq. intros j.
  rewrite list_lookup_imap, list_lookup_alter.
  destruct (decide (rowIndex = j)) as [->|Hne].
  - by rewrite bool_decide_eq_true_2.
  - rewrite bool_decide_eq_false_2 by done. by destruct (snapshot f !! j).
Qed.

Lemma removeRow_total (rowIndex : nat) (f : Fiber) :
  removeRow rowIndex f = ([], after (removeRow rowIndex) f, Some tt).
Proof. unfold after. rewrite removeRow_run. by destruct (isLoading (props f)). Qed.

Lemma updateData_total (rowIndex : nat) (columnId : string) (value : Value) (f : Fiber) :
  updateData rowIndex columnId value f
  = ([], after (updateData rowIndex columnId value) f, Some tt).
Proof. reflexivity. Qed.

(** What an edit leaves alone: the props, the recorded dependencies, the
    page and the filters; the snapshot is a new array. *)
Lemma removeRow_slots (rowIndex : nat) (f : Fiber) :
  let f1 := after (removeRow rowIndex) f in
  props f1 = props f
  ∧ tableData (state f1) = fresh (dom (heap f))
  ∧ heap f1 = <[fresh (dom (heap f)) := RowsArr (delete rowIndex (snapshot f))]> (heap f)
  ∧ loadingDeps f1 = loadingDeps f
  ∧ dataUpdateDeps f1 = dataUpdateDeps f
  ∧ fetchDeps f1 = fetchDeps f
  ∧ pageIndex (state f1) = pageIndex (state f)
  ∧ filteredColumns (state f1) = filteredColumns (state f).
Proof.
  cbv zeta. unfold after. rewrite removeRow_run. unfold after.
  rewrite setTableDataWith_run, filteri_index_ne.
  by destruct (isLoading (props f)).
Qed.

Lemma updateData_slots (rowIndex : nat) (columnId : string) (value : Value) (f : Fiber) :
  let f1 := after (updateData rowIndex columnId value) f in
  props f1 = props f
  ∧ tableData (state f1) = fresh (dom (heap f))
  ∧ loadingDeps f1 = loadingDeps f
  ∧ dataUpdateDeps f1 = dataUpdateDeps f
  ∧ fetchDeps f1 = fetchDeps f
  ∧ pageIndex (state f1) = pageIndex (state f)
  ∧ filteredColumns (state f1) = filteredColumns (state f).
Proof. cbv zeta. unfold after, updateData. by rewrite setTableDataWith_run. Qed.

Lemma commit_closes (f : Fiber) :
  dataUpdateDeps f ≠ Some (tableData (state f), onDataUpdate (props f)) →
  isOpen (state (after commit f)) = false.
Proof.
  destruct f as [p h [td io rs fc pi] d1 d2 d3]. run_commit. intros Hd2.
  rewrite (depsChanged_ne d2) by done.
  destruct (depsChanged d1 _), (isLoading p), (onDataUpdate p),
    (depsChanged d3 _), (fetchRequest p); reflexivity.
Qed.

(** The reaction to a new snapshot array on a settled table. *)
Lemma notify_after_new_snapshot (f f1 : Fiber) (g : FnId) :
  settled f → onDataUpdate (props f) = Some g →
  is_Some (heap f !! tableData (state f)) →
  props f1 = props f →
  tableData (state f1) = fresh (dom (heap f)) →
  loadingDeps f1 = loadingDeps f →
  dataUpdateDeps f1 = dataUpdateDeps f →
  fetchDeps f1 = fetchDeps f →
  pageIndex (state f1) = pageIndex (state f) →
  filteredColumns (state f1) = filteredColumns (state f) →
  calls commit f1 = [call_onDataUpdate (tableData (state f1)) (snapshot f1)]
  ∧ isOpen (state (after commit f1)) = false
  ∧ settled (after commit f1).
Proof.
  intros (Hs1 & Hs2 & Hs3) Hcb Halloc Hp Htd Hd1 Hd2 Hd3 Hpi Hfc.
  assert (Hne : dataUpdateDeps f1 ≠ Some (tableData (state f1), Some g)).
  { rewrite Hd2, Hs2, Htd. intros [= Heq _]. rewrite Heq in Halloc.
    rewrite fresh_not_allocated in Halloc. by destruct Halloc. }
  destruct (commit_dataUpdate_due f1 g) as (Hc & _ & _ & Hset); try done.
  - by rewrite Hp.
  - by rewrite Hd1, Hp.
  - by rewrite Hd3, Hpi, Hfc.
  - split; [done|]. split; [|done]. apply commit_closes. by rewrite Hp, Hcb.
Qed.

(** X7: on a settled table with [onDataUpdate], the reaction cycle after
    [removeRow] or [updateData] calls [onDataUpdate] exactly once, with the
    new snapshot (the old rows without the removed one, or with the field
    set), calls nothing else, closes the toolbar dialog ([isOpen] false) and
    leaves the table settled. *)
Theorem edits_notify_onDataUpdate (f : Fiber) (g : FnId) (rowIndex : nat)
    (columnId : string) (value : Value) :
  settled f → onDataUpdate (props f) = Some g →
  is_Some (heap f !! tableData (state f)) →
  (let f1 := after (removeRow rowIndex) f in
   calls commit f1
   = [call_onDataUpdate (tableData (state f1)) (delete rowIndex (snapshot f))]
   ∧ isOpen (state (after commit f1)) = false
   ∧ settled (after commit f1))
  ∧ (let f1 := after (updateData rowIndex columnId value) f in
     calls commit f1
     = [call_onDataUpdate (tableData (state f1))
          (alter (<[columnId := value]>) rowIndex (snapshot f))]
     ∧ isOpen (state (after commit f1)) = false
     ∧ settled (after commit f1)).
Proof.
  intros Hset Hcb Halloc. split; cbv zeta.
  - rewrite <- snapshot_removeRow.
    destruct (removeRow_slots rowIndex f) as (? & ? & _ & ? & ? & ? & ? & ?).
    by apply (notify_after_new_snapshot f _ g).
  - rewrite <- snapshot_updateData.
    destruct (updateData_slots rowIndex columnId value f) as (? & ? & ? & ? & ? & ? & ?).
    by apply (notify_after_new_snapshot f _ g).
Qed.

Lemma edits_notify_onDataUpdate_witness :
  calls commit (after (removeRow 2) idleTable)
  = [call_onDataUpdate (tableData (state (after (removeRow 2) idleTable)))
       (delete 2 (snapshot idleTable))].
Proof.
  pose proof (edits_notify_onDataUpdate idleTable 2 2 "name" VNull
                ltac:(vm_compute; done) eq_refl ltac:(vm_compute; eauto)) as H.
  cbv zeta in H. exact (proj1 (proj1 H)).
Defined.

(** *** Indices past the end *)

Lemma delete_past_end {A} (l : list A) (i : nat) : (length l ≤ i)%nat → delete i l = l.
Proof.
  intros Hi. rewrite delete_take_drop, take_ge, drop_ge by lia. apply app_nil_r.
Qed.

Lemma alter_past_end {A} (g : A → A) (l : list A) (i : nat) :
  (length l ≤ i)%nat → alter g i l = l.
Proof.
  intros Hi. apply list_eq. intros j. rewrite list_lookup_alter.
  case_decide as Hij; [|done]. subst j. by rewrite lookup_ge_None_2.
Qed.

(** X8: [removeRow] and [updateData] with an index past the end of the
    snapshot change no row; they still install a new snapshot array, so the
    snapshot changes identity and [onDataUpdate] is notified again, and
    [removeRow] still resets the selection when no load is in flight. *)
Theorem edits_past_the_end (f : Fiber) (rowIndex : nat) (columnId : string)
    (value : Value) :
  (length (snapshot f) ≤ rowIndex)%nat →
  is_Some (heap f !! tableData (state f)) →
  snapshot (after (removeRow rowIndex) f) = snapshot f
  ∧ snapshot (after (updateData rowIndex columnId value) f) = snapshot f
  ∧ tableData (state (after (removeRow rowIndex) f)) ≠ tableData (state f)
  ∧ tableData (state (after (updateData rowIndex columnId value) f))
    ≠ tableData (state f)
  ∧ rowSelection (state (after (removeRow rowIndex) f))
    = (if isLoading (props f) then rowSelection (state f) else ∅).
Proof.
  intros Hlen Halloc.
  assert (Hfresh : fresh (dom (heap f)) ≠ tableData (state f)).
  { intros Heq. rewrite <- Heq, fresh_not_allocated in Halloc. by destruct Halloc. }
  split; [by rewrite snapshot_removeRow, delete_past_end|].
  split; [by rewrite snapshot_updateData, alter_past_end|].
  destruct (removeRow_slots rowIndex f) as (_ & -> & _).
  destruct (updateData_slots rowIndex columnId value f) as (_ & -> & _).
  split; [done|]. split; [done|].
  unfold after. rewrite removeRow_run. by destruct (isLoading (props f)).
Qed.

Lemma edits_past_the_end_witness :
  snapshot (after (removeRow 7) idleTable) = snapshot idleTable
  ∧ rowSelection (state (after (removeRow 7) idleTable)) = ∅.
Proof.
  pose proof (edits_past_the_end idleTable 7 "name" VNull
                ltac:(vm_compute; lia) ltac:(vm_compute; eauto))
    as (H1 & _ & _ & _ & H2).
  split; [exact H1 | exact H2].
Defined.

(** *** How edits compose *)

Lemma after_then {A B} (m : M A) (k : M B) (f : Fiber) (a : A) :
  m f = ([], after m f, Some a) → after (m;; k) f = after k (after m f).
Proof. intros H. by destruct (bind_silent m (λ _, k) f (after m f) a H) as [_ ->]. Qed.

(** X9: two [updateData] on the same field of the same row leave what the
    second alone leaves; two [updateData] on different rows or different
    fields give the same rows in either order; writing the value a field
    already has changes no row. *)
Theorem updateData_composes (f : Fiber) (i j : nat) (c d : string) (v w : Value) :
  snapshot (after (updateData i c v;; updateData i c w) f)
  = snapshot (after (updateData i c w) f)
  ∧ ((i, c) ≠ (j, d) →
     snapshot (after (updateData i c v;; updateData j d w) f)
     = snapshot (after (updateData j d w;; updateData i c v) f))
  ∧ (∀ row, snapshot f !! i = Some row → row !! c = Some v →
     snapshot (after (updateData i c v) f) = snapshot f).
Proof.
  split; [|split].
  - rewrite (after_then _ _ f tt) by apply updateData_total.
    rewrite !snapshot_updateData, list_alter_alter_eq.
    apply list_alter_ext; [|done]. intros row _. apply insert_insert_eq.
  - intros Hne.
    rewrite !(after_then _ _ f tt) by apply updateData_total.
    rewrite !snapshot_updateData.
    destruct (decide (i = j)) as [->|Hij].
    + assert (c ≠ d) by congruence.
      rewrite !list_alter_alter_eq. apply list_alter_ext; [|done].
      intros row _. cbn. by apply insert_insert_ne.
    + by apply list_alter_alter_ne.
  - intros row Hrow Hv. rewrite snapshot_updateData.
    apply list_eq. intros k. rewrite list_lookup_alter.
    case_decide as Hik; [|done]. subst k. rewrite Hrow. cbn.
    by rewrite insert_id.
Qed.

Lemma delete_alter_same {A} (g : A → A) (l : list A) (i : nat) :
  delete i (alter g i l) = delete i l.
Proof. revert i. induction l as [|x l IH]; intros [|i]; cbn; by rewrite ?IH. Qed.

Lemma delete_alter_before {A} (g : A → A) (l : list A) (i j : nat) :
  (j < i)%nat → delete i (alter g j l) = alter g j (delete i l).
Proof.
  revert i j. induction l as [|x l IH]; intros [|i] [|j] Hlt; cbn; try done; try lia.
  by rewrite IH by lia.
Qed.

Lemma delete_alter_after {A} (g : A → A) (l : list A) (i j : nat) :
  (i ≤ j)%nat → delete i (alter g (S j) l) = alter g j (delete i l).
Proof.
  revert i j. induction l as [|x l IH]; intros [|i] [|j] Hle; cbn; try done; try lia.
  by rewrite IH by lia.
Qed.

(** X10: editing a row and then removing it leaves what removing it alone
    leaves; an [updateData] on a row before the removed one commutes with
    the removal; after [removeRow(i)], [updateData(j, ...)] with [j] at or
    past [i] edits the row that was at index [j + 1]. *)
Theorem removeRow_shifts_updateData (f : Fiber) (i j : nat) (c : string) (v : Value) :
  snapshot (after (updateData i c v;; removeRow i) f)
  = snapshot (after (removeRow i) f)
  ∧ ((j < i)%nat →
     snapshot (after (removeRow i;; updateData j c v) f)
     = snapshot (after (updateData j c v;; removeRow i) f))
  ∧ ((i ≤ j)%nat →
     snapshot (after (removeRow i;; updateData j c v) f)
     = snapshot (after (updateData (S j) c v;; removeRow i) f)).
Proof.
  split; [|split]; intros.
  - rewrite (after_then _ _ f tt) by apply updateData_total.
    by rewrite !snapshot_removeRow, snapshot_updateData, delete_alter_same.
  - rewrite (after_then (removeRow i) _ f tt) by apply removeRow_total.
    rewrite (after_then (updateData j c v) _ f tt) by apply updateData_total.
    rewrite !snapshot_removeRow, !snapshot_updateData, snapshot_removeRow.
    by rewrite delete_alter_before.
  - rewrite (after_then (removeRow i) _ f tt) by apply removeRow_total.
    rewrite (after_then (updateData (S j) c v) _ f tt) by apply updateData_total.
    rewrite !snapshot_removeRow, !snapshot_updateData, snapshot_removeRow.
    by rewrite delete_alter_after.
Qed.

(** X11: [removeRow] writes no array that is already in the heap: it builds
    a new one.  When the snapshot is the caller's [data] array itself, the
    caller's array still holds every row, the removed one included. *)
Theorem removeRow_builds_new_array (f : Fiber) (rowIndex : nat) :
  let f' := after (removeRow rowIndex) f in
  (∀ l, is_Some (heap f !! l) → heap f' !! l = heap f !! l)
  ∧ (is_Some (heap f !! data (props f)) → tableData (state f) = data (props f) →
     rowsAt (heap f') (data (props f')) = snapshot f
     ∧ snapshot f' = delete rowIndex (snapshot f)).
Proof.
  cbv zeta. destruct (removeRow_slots rowIndex f) as (Hp & _ & Hh & _).
  split.
  - intros l Hl. rewrite Hh. by apply alloc_preserves.
  - intros Hd Htd. split; [|apply snapshot_removeRow].
    rewrite Hp, Hh, rowsAt_alloc_other by done. unfold snapshot. by rewrite Htd.
Qed.

End DataTableEdits.

Section DataTableReload.
Import DataTable.

Ltac run_commit :=
  cbv [commit when loadingEffect dataUpdateEffect fetchEffect setTableData setIsOpen
       newArray mbind Eff_bind bind mret Eff_ret ret get modify invoke
       withState withHeap withDeps calls after snapshot settled
       props heap state loadingDeps dataUpdateDeps fetchDeps
       tableData isOpen rowSelection filteredColumns pageIndex fst snd].

(** The cycle in which the loading effect is due and no load is in flight. *)
Lemma commit_data_due (f : Fiber) :
  isLoading (props f) = false →
  loadingDeps f ≠ Some (false, data (props f)) →
  let f1 := after commit f in
  props f1 = props f
  ∧ heap f1 = heap f
  ∧ tableData (state f1) = data (props f)
  ∧ loadingDeps f1 = Some (false, data (props f))
  ∧ dataUpdateDeps f1 = Some (tableData (state f), onDataUpdate (props f))
  ∧ fetchDeps f1 = Some (pageIndex (state f1), filteredColumns (state f1)).
Proof.
  destruct f as [p h [td io rs fc pi] d1 d2 d3]. run_commit.
  intros -> Hd1. rewrite (depsChanged_ne d1) by done.
  destruct (depsChanged d2 _), (onDataUpdate p), (depsChanged d3 _), (fetchRequest p);
    cbn; done.
Qed.

(** X12: when new props arrive with no load in flight (a load ends, or
    [data] changes), the reaction cycles make the snapshot the caller's
    [data] array itself, whatever the snapshot was: placeholder rows and
    local edits are dropped.  No array is built or written, and
    [onDataUpdate] is called last with the caller's array. *)
Theorem new_data_replaces_snapshot (f : Fiber) (p' : Props) (g : FnId) (n : nat) :
  isLoading p' = false → onDataUpdate p' = Some g →
  loadingDeps f ≠ Some (false, data p') →
  tableData (state f) ≠ data p' →
  let f' := after (setProps p';; settle (2 + n)) f in
  tableData (state f') = data p'
  ∧ heap f' = heap f
  ∧ snapshot f' = rowsAt (heap f) (data p')
  ∧ last (dataUpdateCalls (calls (setProps p';; settle (2 + n)) f))
    = Some (data p', rowsAt (heap f) (data p'))
  ∧ settled f'.
Proof.
  intros Hload Hcb Hdue Hne. cbv zeta.
  destruct (bind_silent (setProps p') (λ _, settle (2 + n)) f (withProps p' f) tt eq_refl)
    as [-> ->].
  set (f0 := withProps p' f).
  destruct (commit_data_due f0 Hload Hdue) as (Hp & Hh & Htd & Hd1 & Hd2 & Hd3).
  set (f1 := after commit f0) in *.
  change (props f0) with p' in *. change (state f0) with (state f) in *.
  change (heap f0) with (heap f) in *.
  destruct (commit_dataUpdate_due f1 g) as (Hc2 & Hsnap2 & Htd2 & Hset).
  - by rewrite Hp.
  - by rewrite Hp, Hload.
  - rewrite Hd2, Htd. intros [= Heq _]. by apply Hne.
  - done.
  - set (f2 := after commit f1) in *.
    destruct (settle_settled n f2 Hset) as [Hcn Han].
    change (2 + n) with (S (S n)).
    destruct (settle_S (S n) f0) as [-> ->]. fold f1.
    destruct (settle_S n f1) as [-> ->]. fold f2.
    rewrite Hcn, Han, Hc2, app_nil_r.
    assert (Hheap2 : heap f2 = heap f).
    { destruct (commit_notify_only f1) as (_ & _ & Hh2 & _);
        [by rewrite Hp, Hload | done |].
      transitivity (heap f1); [exact Hh2 | exact Hh]. }
    assert (Hsnap1 : snapshot f1 = rowsAt (heap f) (data p')).
    { unfold snapshot. by rewrite Hh, Htd. }
    split; [by rewrite Htd2|]. split; [done|]. split; [by rewrite Hsnap2|].
    split; [|done].
    unfold dataUpdateCalls. rewrite omap_app. cbn [omap list_omap].
    by rewrite last_snoc, Htd, Hsnap1.
Qed.

Lemma new_data_replaces_snapshot_witness :
  snapshot (after (setProps (sampleProps false);; settle 2) reloadingTable) = sampleRows.
Proof.
  pose proof (new_data_replaces_snapshot reloadingTable (sampleProps false) 2 0
                eq_refl eq_refl ltac:(by vm_compute) ltac:(by vm_compute))
    as (_ & _ & H & _).
  exact H.
Defined.

End DataTableReload.

Section DataTablePayload.
Import DataTable.

(** *** The payload of any list of filters *)

Lemma buildFilter_snoc (fs : list ColumnFilter) (column : ColumnFilter) :
  buildFilter (fs ++ [column])
  = assign (name column) (filterEntry column) (buildFilter fs).
Proof. unfold buildFilter. by rewrite fold_left_app. Qed.

(** X13: for any list of committed filters, repeated names included, the
    payload has under a name other than ["__proto__"] the entry of the last
    filter of that name, and has an own entry exactly for the names that
    occur and are not ["__proto__"].  Filters named ["__proto__"] add no
    entry: the last multi-value one among them becomes the prototype of the
    payload object, and the others are ignored. *)
Theorem buildFilter_lookup (fs : list ColumnFilter) (k : string) :
  (k ≠ "__proto__" →
   entries (buildFilter fs) !! k
   = filterEntry <$> last (List.filter (λ column, bool_decide (name column = k)) fs))
  ∧ entries (buildFilter fs) !! "__proto__" = None
  ∧ (is_Some (entries (buildFilter fs) !! k) ↔ k ∈ map name fs ∧ k ≠ "__proto__")
  ∧ proto (buildFilter fs)
    = last (omap (λ column,
                    if bool_decide (name column = "__proto__") then
                      match filterEntry column with
                      | Segments l => Some l
                      | Scalar _ => None
                      end
                    else None) fs).
Proof.
  induction fs as [|column fs (IH1 & IH2 & IH3 & IH4)] using rev_ind.
  - split; [done|]. split; [done|]. split; [|done].
    cbn. rewrite lookup_empty. split; [by intros [? ?]|].
    intros [H _]. by apply elem_of_nil in H.
  - rewrite buildFilter_snoc, !entries_assign, List.filter_app, map_app, elem_of_app,
      omap_app.
    cbn [List.filter map omap list_omap].
    split; [|split; [|split]].
    + intros Hk. destruct (decide (name column = k)) as [<-|Hne].
      * rewrite !bool_decide_eq_true_2 by done. by rewrite last_snoc.
      * rewrite !bool_decide_eq_false_2 by (by intros; try intros [? _]).
        rewrite app_nil_r. by apply IH1.
    + rewrite bool_decide_eq_false_2; [done|]. intros [-> H]. by apply H.
    + case_bool_decide as Hk.
      * destruct Hk as [<- Hp]. split; [|eauto].
        intros _. split; [|done]. right. by left.
      * rewrite IH3. split.
        -- intros [? ?]. split; [by left | done].
        -- intros [[?|Hin] Hp]; [done|].
           apply list_elem_of_singleton in Hin. subst k. destruct Hk. done.
    + unfold assign. case_bool_decide as Hp.
      * destruct (filterEntry column) as [v|l]; cbn [proto].
        -- by rewrite app_nil_r.
        -- by rewrite last_snoc.
      * cbn [proto]. by rewrite app_nil_r.
Qed.

(** *** Splitting and joining *)

Lemma split_without_sep (sep : ascii) (s : string) :
  sep ∉ list_ascii_of_string s → split sep s = [s].
Proof.
  induction s as [|c s IH]; cbn [split list_ascii_of_string]; [done|].
  intros Hnin. apply not_elem_of_cons in Hnin as [Hc Hs].
  rewrite (proj2 (Ascii.eqb_neq c sep)) by done. by rewrite IH.
Qed.

Lemma split_app_sep (sep : ascii) (s t : string) :
  sep ∉ list_ascii_of_string s →
  split sep (s ++ String sep t) = s :: split sep t.
Proof.
  induction s as [|c s IH]; intros Hnin.
  - change (split sep (String sep t) = EmptyString :: split sep t).
    cbn [split]. by rewrite Ascii.eqb_refl.
  - change (split sep (String c (s ++ String sep t)) = String c s :: split sep t).
    cbn [list_ascii_of_string] in Hnin. apply not_elem_of_cons in Hnin as [Hc Hs].
    cbn [split]. rewrite (proj2 (Ascii.eqb_neq c sep)) by done. by rewrite IH.
Qed.

Lemma split_concat (sep : ascii) (segs : list string) :
  segs ≠ [] →
  Forall (λ seg, sep ∉ list_ascii_of_string seg) segs →
  split sep (String.concat (String sep EmptyString) segs) = segs.
Proof.
  induction segs as [|seg segs IH]; [done|]. intros _ Hall.
  apply Forall_cons in Hall as [Hseg Hsegs].
  destruct segs as [|seg' segs]; [by apply split_without_sep|].
  change (String.concat ?d (seg :: seg' :: segs))
    with (seg ++ String sep (String.concat d (seg' :: segs)))%string.
  rewrite split_app_sep by done. by rewrite IH.
Qed.

Lemma filter_truthy_id (segs : list string) :
  Forall (λ seg, seg ≠ "") segs → List.filter truthy segs = segs.
Proof.
  induction 1 as [|seg segs Hseg _ IH]; [done|]. cbn.
  rewrite (proj2 (truthy_spec seg)) by done. by rewrite IH.
Qed.

Lemma filter_truthy_elem (segs : list string) (seg : string) :
  seg ∈ List.filter truthy segs ↔ seg ∈ segs ∧ seg ≠ "".
Proof. by rewrite !list_elem_of_In, filter_In, truthy_spec. Qed.

(** X14: for a [select-multiple] or [select-async] filter, every segment
    sent is non-empty and has no comma; a value that is the comma-joined
    list of one or more non-empty comma-free strings is sent as exactly
    that list; the empty value is sent as the empty list. *)
Theorem multi_value_round_trip (column : ColumnFilter) (segs : list string) :
  type column = "select-multiple" ∨ type column = "select-async" →
  (∃ sent, filterEntry column = Segments sent
           ∧ Forall (λ seg, seg ≠ "" ∧ ","%char ∉ list_ascii_of_string seg) sent)
  ∧ (segs ≠ [] →
     Forall (λ seg, seg ≠ "" ∧ ","%char ∉ list_ascii_of_string seg) segs →
     value column = String.concat "," segs →
     filterEntry column = Segments segs)
  ∧ (value column = "" → filterEntry column = Segments []).
Proof.
  intros Hty. unfold filterEntry. rewrite bool_decide_eq_true_2 by done.
  split; [|split].
  - eexists. split; [done|]. apply Forall_forall. intros seg Hin.
    apply filter_truthy_elem in Hin as [Hin Hne]. split; [done|].
    pose proof (split_no_sep "," (value column)) as Hall.
    rewrite Forall_forall in Hall. by apply Hall.
  - intros Hne Hall ->. f_equal.
    rewrite split_concat; [|done|by eapply Forall_impl; [exact Hall | intros ? [? ?]]].
    apply filter_truthy_id. by eapply Forall_impl; [exact Hall | intros ? [? ?]].
  - by intros ->.
Qed.

Lemma multi_value_round_trip_witness :
  filterEntry {| name := "tags"; value := "red,green"; type := "select-async" |}
  = Segments ["red"; "green"].
Proof.
  refine (proj1 (proj2 (multi_value_round_trip
            {| name := "tags"; value := "red,green"; type := "select-async" |}
            ["red"; "green"] (or_intror eq_refl))) _ _ eq_refl).
  - discriminate.
  - repeat constructor; first [ discriminate | refine (bool_decide_unpack _ _); vm_compute; exact I ].
Defined.

End DataTablePayload.

Section DataTableBody.
Import DataTable.

(** *** The body with rows *)

Lemma body_rows_of_flat_map (sub : bool) (rows : list ModelRow) :
  let body := flat_map (λ row,
                DataRow (rowId row) (getIsSelected row) (getVisibleCells row) ::
                (if getIsExpanded row && sub
                 then [SubComponentRow (length (getVisibleCells row))] else [])) rows in
  omap (λ b, match b with
             | DataRow key sel cells => Some (key, sel, cells)
             | _ => None
             end) body
  = map (λ r, (rowId r, getIsSelected r, getVisibleCells r)) rows
  ∧ omap (λ b, match b with SubComponentRow n => Some n | _ => None end) body
    = (if sub then map (λ r, length (getVisibleCells r)) (List.filter getIsExpanded rows)
       else [])
  ∧ length body
    = length rows + (if sub then length (List.filter getIsExpanded rows) else 0).
Proof.
  cbv zeta. induction rows as [|r rows (IH1 & IH2 & IH3)]; [by destruct sub|].
  cbn [flat_map List.filter map]. rewrite !omap_app, length_app, IH1, IH2, IH3.
  destruct (getIsExpanded r), sub; cbn; repeat split; try done; lia.
Qed.

(** X15: with rows in the row model, the body has one data row per row, in
    order, with the row's id, selection mark and visible cells; it has a
    sub-component row exactly for the expanded rows, and only when
    [renderSubComponent] is given, each spanning the visible cells of its
    row; it has no placeholder row. *)
Theorem body_rows_and_expansion (columnsGenerator : AutoColumnsData → list ColumnDef)
    (p : Props) (rows : list ModelRow) :
  rows ≠ [] →
  let body := renderBody columnsGenerator p rows in
  omap (λ b, match b with
             | DataRow key sel cells => Some (key, sel, cells)
             | _ => None
             end) body
  = map (λ r, (rowId r, getIsSelected r, getVisibleCells r)) rows
  ∧ omap (λ b, match b with SubComponentRow n => Some n | _ => None end) body
    = match renderSubComponent p with
      | Some _ => map (λ r, length (getVisibleCells r)) (List.filter getIsExpanded rows)
      | None => []
      end
  ∧ length body
    = length rows + match renderSubComponent p with
                    | Some _ => length (List.filter getIsExpanded rows)
                    | None => 0
                    end.
Proof.
  intros Hne. cbv zeta. unfold renderBody.
  rewrite bool_decide_eq_true_2 by by destruct rows.
  pose proof (body_rows_of_flat_map (bool_decide (is_Some (renderSubComponent p))) rows)
    as H.
  cbv zeta in H. destruct (renderSubComponent p) as [g|].
  - rewrite bool_decide_eq_true_2 in H by eauto. exact H.
  - rewrite bool_decide_eq_false_2 in H by by intros [? ?]. exact H.
Qed.

Lemma body_rows_and_expansion_witness :
  length (renderBody (λ _, []) (sampleProps false)
            [ {| rowId := "0"; getIsSelected := false; getIsExpanded := true;
                 getVisibleCells := ["id"; "name"] |} ]) = 1.
Proof.
  exact (proj2 (proj2 (body_rows_and_expansion (λ _, []) (sampleProps false)
            [ {| rowId := "0"; getIsSelected := false; getIsExpanded := true;
                 getVisibleCells := ["id"; "name"] |} ] ltac:(discriminate)))).
Defined.

End DataTableBody.
